(** * arch-scheduling-controller: the reconciliation engine, embedded and verified

    A shallow embedding of [controller/controller.go].  The controller talks
    to three collaborators through Go interfaces: the clientset
    ([kubernetes.Interface]), the pod lister of the informer cache
    ([listers.PodLister]) and the rate-limited work queue
    ([workqueue.RateLimitingInterface]).  Each of them is a type class over an
    abstract world [W]; a method takes the world, answers, and gives the next
    world.  Every call is also recorded, with its answer, in a trace of
    events, so that statements such as "Done is called exactly once" or
    "exactly N owner fetches" are statements about that trace. *)

From Stdlib Require Import Ascii String List Lia PeanoNat Bool.
From stdpp Require Import gmap strings list.

Open Scope string_scope.
Open Scope list_scope.

(** ** Text helpers *)

Module text.

(** The double quote character; Go source text containing it is written
    below with an apostrophe in its place and passed through [unquote]. *)
Definition DQ : ascii := "034"%char.
Definition LF : ascii := "010"%char.

Fixpoint unquote (s : string) : string :=
  match s with
  | EmptyString => EmptyString
  | String c rest =>
      String (if Ascii.eqb c "'" then DQ else c) (unquote rest)
  end.

End text.

(** ** Packages strconv and fmt *)

Module strconv.

Fixpoint escape (s : string) : string :=
  match s with
  | EmptyString => EmptyString
  | String c rest =>
      if Ascii.eqb c text.DQ || Ascii.eqb c "\"
      then String "\" (String c (escape rest))
      else String c (escape rest)
  end.

(** [strconv.Quote] on printable ASCII text: the text between double
    quotes, a backslash put before each double quote and backslash. *)
Definition Quote (s : string) : string :=
  String text.DQ (escape s +:+ String text.DQ EmptyString).

End strconv.

Module fmt.

(** [fmt.Sprintf] for the format strings of this program: the verbs are
    [%s], [%q] and [%#v], replaced by the next argument: its text, its text
    quoted, and (the argument being the Go-syntax rendering of the value)
    its text. *)
Fixpoint Sprintf (format : string) (args : list string) : string :=
  match format with
  | EmptyString => EmptyString
  | String "%" (String "s" rest) =>
      match args with
      | a :: args' => a +:+ Sprintf rest args'
      | [] => "%!s(MISSING)" +:+ Sprintf rest []
      end
  | String "%" (String "q" rest) =>
      match args with
      | a :: args' => strconv.Quote a +:+ Sprintf rest args'
      | [] => "%!q(MISSING)" +:+ Sprintf rest []
      end
  | String "%" (String "#" (String "v" rest)) =>
      match args with
      | a :: args' => a +:+ Sprintf rest args'
      | [] => "%!v(MISSING)" +:+ Sprintf rest []
      end
  | String c rest => String c (Sprintf rest args)
  end.

End fmt.

Arguments fmt.Sprintf : simpl never.

(** ** Package metav1 (apimachinery) *)

Module metav1.

Record OwnerReference := {
  ref_APIVersion : string;
  ref_Kind : string;
  ref_Name : string;
  ref_Controller : option bool   (* *bool *)
}.

Record ObjectMeta := {
  Name : string;
  Namespace : string;
  ResourceVersion : string;
  Labels : gmap string string;
  OwnerReferences : list OwnerReference
}.

(** [metav1.GetControllerOf]: the first owner reference whose Controller
    pointer is set and true. *)
Fixpoint GetControllerOf_refs (refs : list OwnerReference) : option OwnerReference :=
  match refs with
  | [] => None
  | ref :: rest =>
      match ref_Controller ref with
      | Some true => Some ref
      | _ => GetControllerOf_refs rest
      end
  end.

Definition GetControllerOf (controllee : ObjectMeta) : option OwnerReference :=
  GetControllerOf_refs (OwnerReferences controllee).

(** [GetLabels()[key]]: a Go map read, the zero value when the key is absent. *)
Definition label (labels : gmap string string) (key : string) : string :=
  default EmptyString (labels !! key).

End metav1.

(** ** Package v1 (core API types) *)

Module v1.

Record ContainerStateWaiting := {
  Reason : string;
  Message : string
}.

Record ContainerState := {
  Waiting : option ContainerStateWaiting;   (* *ContainerStateWaiting *)
  Running : bool;                           (* Running != nil *)
  Terminated : bool                         (* Terminated != nil *)
}.

Record ContainerStatus := {
  cs_Name : string;
  State : ContainerState
}.

Record Container := {
  ct_Name : string;
  Image : string
}.

Record PodSpec := {
  NodeName : string;
  Containers : list Container
}.

Record PodStatus := {
  ContainerStatuses : list ContainerStatus
}.

Record Pod := {
  Kind : string;                  (* TypeMeta.Kind *)
  pod_meta : metav1.ObjectMeta;
  Spec : PodSpec;
  Status : PodStatus
}.

Record Node := {
  node_meta : metav1.ObjectMeta
}.

End v1.

(** ** Errors, queue items and the values the collaborators answer with *)

(** A Go [error]: its message and whether [errors.IsNotFound] holds of it. *)
Record error := {
  Error : string;
  IsNotFound : bool
}.

(** An item of the work queue ([interface{}]): a string key, or any other
    value, kept as its [%#v] rendering. *)
Inductive Item :=
| ItemString (key : string)
| ItemOther (goSyntax : string).

(** A [runtime.Object] answered by the REST client: one that implements
    [metav1.Object], or one that does not. *)
Inductive RuntimeObject :=
| RObject (meta : metav1.ObjectMeta)
| RNoMeta.

(** What [GetLogs(...).Stream], [io.Copy] and [body.Close] give for one
    container. *)
Inductive LogStream :=
| StreamFailed (err : error)                          (* req.Stream failed *)
| CopyFailed (err : error)                            (* io.Copy failed *)
| Copied (content : string) (closeErr : option error) (* buf.String(), body.Close() *).

Inductive Severity := SevInfo | SevInfoV4 | SevError.

Inductive Event :=
| EvGetLogs (namespace pod container : string) (r : LogStream)
| EvListerGet (namespace name : string) (r : error + v1.Pod)
| EvRestGet (resource namespace name : string) (r : error + RuntimeObject)
| EvNodeGet (name : string) (r : error + v1.Node)
| EvRestPatch (namespace resource name body : string) (r : option error)
| EvQueueGet (item : Item) (shutdown : bool)
| EvQueueAdd (item : Item)
| EvQueueDone (item : Item)
| EvQueueForget (item : Item)
| EvQueueAddRateLimited (item : Item)
| EvKlog (sev : Severity) (msg : string)
| EvHandleError (msg : string).

(** ** The collaborators, as interfaces over a world *)

(** [kubernetes.Interface], the part the controller uses. *)
Class Clientset (W : Type) := {
  (* CoreV1().Pods(ns).GetLogs(pod, {Container}) streamed, copied, closed *)
  podLogs : string -> string -> string -> W -> LogStream * W;
  (* AppsV1().RESTClient().Get().Resource(r).Namespace(ns).Name(n).Do().Get() *)
  restGet : string -> string -> string -> W -> (error + RuntimeObject) * W;
  (* CoreV1().Nodes().Get(name) *)
  nodeGet : string -> W -> (error + v1.Node) * W;
  (* AppsV1().RESTClient().Patch(StrategicMergePatchType)...Body(b).Do().Get() *)
  restPatch : string -> string -> string -> string -> W -> option error * W
}.

(** [listers.PodLister]: [Pods(ns).Get(name)]. *)
Class PodLister (W : Type) := {
  listerGet : string -> string -> W -> (error + v1.Pod) * W
}.

(** [workqueue.RateLimitingInterface]. *)
Class Workqueue (W : Type) := {
  wqGet : W -> (Item * bool) * W;
  wqAdd : Item -> W -> W;
  wqDone : Item -> W -> W;
  wqForget : Item -> W -> W;
  wqAddRateLimited : Item -> W -> W
}.

(** [gengo/namer]'s all-lowercase plural namer, applied to a kind name. *)
Class PluralNamer := {
  pluralName : string -> string
}.

(** ** The monad of the embedding *)

(** A call returns, panics, or (for the unbounded recursion of the owner
    walk) has not returned within the fuel it was given. *)
Inductive Outcome (A : Type) :=
| Ret (a : A)
| Panic (msg : string)
| OutOfFuel.
Arguments Ret {A} a.
Arguments Panic {A} msg.
Arguments OutOfFuel {A}.

Definition M (W A : Type) : Type := W -> Outcome A * W * list Event.

Definition ret {W A} (a : A) : M W A := fun w => (Ret a, w, []).

Definition bind {W A B} (m : M W A) (k : A -> M W B) : M W B :=
  fun w =>
    match m w with
    | (Ret a, w1, t1) =>
        match k a w1 with
        | (r, w2, t2) => (r, w2, t1 ++ t2)
        end
    | (Panic msg, w1, t1) => (Panic msg, w1, t1)
    | (OutOfFuel, w1, t1) => (OutOfFuel, w1, t1)
    end.

Definition panic {W A} (msg : string) : M W A := fun w => (Panic msg, w, []).
Definition outOfFuel {W A} : M W A := fun w => (OutOfFuel, w, []).

(** A deferred call runs when the body returns and when it panics; a body
    that never returns never reaches it. *)
Definition defer {W A} (deferred : M W unit) (body : M W A) : M W A :=
  fun w =>
    match body w with
    | (OutOfFuel, w1, t1) => (OutOfFuel, w1, t1)
    | (r, w1, t1) =>
        match deferred w1 with
        | (_, w2, t2) => (r, w2, t1 ++ t2)
        end
    end.

Declare Scope go_scope.
Delimit Scope go_scope with go.
Notation "x <- m ;; k" := (bind m (fun x => k))
  (at level 100, m at next level, right associativity) : go_scope.
Notation "m ;;; k" := (bind m (fun _ => k))
  (at level 100, right associativity) : go_scope.
Open Scope go_scope.

(** The outcome, the final world and the events of a run. *)
Definition outcome {W A} (r : Outcome A * W * list Event) : Outcome A := fst (fst r).
Definition world {W A} (r : Outcome A * W * list Event) : W := snd (fst r).
Definition events {W A} (r : Outcome A * W * list Event) : list Event := snd r.

(** ** Package cache (client-go) *)

Module cache.

(** [strings.Split(s, "/")]. *)
Fixpoint splitSlash (s : string) : list string :=
  match s with
  | EmptyString => [EmptyString]
  | String c rest =>
      if Ascii.eqb c "/" then EmptyString :: splitSlash rest
      else match splitSlash rest with
           | part :: parts => String c part :: parts
           | [] => [String c EmptyString]
           end
  end.

(** [cache.SplitMetaNamespaceKey]: one part is a name without namespace,
    two parts are namespace and name, anything else is an error. *)
Definition SplitMetaNamespaceKey (key : string) : error + (string * string) :=
  match splitSlash key with
  | [name] => inr (EmptyString, name)
  | [namespace; name] => inr (namespace, name)
  | _ => inl {| Error := fmt.Sprintf "unexpected key format: %q" [key];
                IsNotFound := false |}
  end.

(** [cache.MetaNamespaceKeyFunc] on an object that has metadata. *)
Definition MetaNamespaceKeyFunc (meta : metav1.ObjectMeta) : error + string :=
  if Nat.ltb 0 (String.length (metav1.Namespace meta))
  then inr (metav1.Namespace meta +:+ "/" +:+ metav1.Name meta)
  else inr (metav1.Name meta).

End cache.

(** ** Package controller *)

(** The signature a container's log must equal, and the patch template. *)
Definition errorMessage : string :=
  text.unquote "standard_init_linux.go:211: exec user process caused 'exec format error'"
  +:+ String text.LF EmptyString.

Definition patchJSON : string := text.unquote "
{
  'spec': {
    'template': {
      'spec': {
        'affinity': {
          'nodeAffinity': {
            'requiredDuringSchedulingIgnoredDuringExecution': {
              'nodeSelectorTerms': [
                {
                  'matchExpressions': [
                    {
                      'key': 'beta.kubernetes.io/arch',
                      'operator': 'NotIn',
                      'values': [
                        '%s'
                      ]
                    }
                  ]
                }
              ]
            }
          }
        }
      }
    }
  }
}
".

Arguments errorMessage : simpl never.
Arguments patchJSON : simpl never.

Record controllerObject := {
  kind : string;
  name : string;
  namespace : string
}.

Section controller.

Context {W : Type} `{!Clientset W} `{!PodLister W} `{!Workqueue W} `{!PluralNamer}.

(** *** Calls on the collaborators, each recorded with its answer *)

Definition GetLogs (ns pod container : string) : M W LogStream :=
  fun w => let (r, w') := podLogs ns pod container w in
           (Ret r, w', [EvGetLogs ns pod container r]).

Definition PodsGet (ns name : string) : M W (error + v1.Pod) :=
  fun w => let (r, w') := listerGet ns name w in
           (Ret r, w', [EvListerGet ns name r]).

Definition RESTGet (resource ns name : string) : M W (error + RuntimeObject) :=
  fun w => let (r, w') := restGet resource ns name w in
           (Ret r, w', [EvRestGet resource ns name r]).

Definition NodesGet (name : string) : M W (error + v1.Node) :=
  fun w => let (r, w') := nodeGet name w in
           (Ret r, w', [EvNodeGet name r]).

Definition RESTPatch (ns resource name body : string) : M W (option error) :=
  fun w => let (r, w') := restPatch ns resource name body w in
           (Ret r, w', [EvRestPatch ns resource name body r]).

Definition workqueue_Get : M W (Item * bool) :=
  fun w => let (r, w') := wqGet w in
           (Ret r, w', [EvQueueGet (fst r) (snd r)]).

Definition workqueue_Add (item : Item) : M W unit :=
  fun w => (Ret tt, wqAdd item w, [EvQueueAdd item]).

Definition workqueue_Done (item : Item) : M W unit :=
  fun w => (Ret tt, wqDone item w, [EvQueueDone item]).

Definition workqueue_Forget (item : Item) : M W unit :=
  fun w => (Ret tt, wqForget item w, [EvQueueForget item]).

Definition workqueue_AddRateLimited (item : Item) : M W unit :=
  fun w => (Ret tt, wqAddRateLimited item w, [EvQueueAddRateLimited item]).

Definition klog (sev : Severity) (format : string) (args : list string) : M W unit :=
  fun w => (Ret tt, w, [EvKlog sev (fmt.Sprintf format args)]).

Definition HandleError (format : string) (args : list string) : M W unit :=
  fun w => (Ret tt, w, [EvHandleError (fmt.Sprintf format args)]).

Definition when (b : bool) (m : M W unit) : M W unit :=
  if b then m else ret tt.

(** *** enqueuePod *)

Definition enqueuePod (pod : v1.Pod) : M W unit :=
  match cache.MetaNamespaceKeyFunc (v1.pod_meta pod) with
  | inl err => HandleError "%s" [Error err]
  | inr key => workqueue_Add (ItemString key)
  end.

(** *** handleObject *)

(** [cs.State.Waiting != nil && cs.State.Waiting.Reason == "CrashLoopBackOff"] *)
Definition isCrashLoopStatus (cs : v1.ContainerStatus) : bool :=
  match v1.Waiting (v1.State cs) with
  | Some waiting => String.eqb (v1.Reason waiting) "CrashLoopBackOff"
  | None => false
  end.

(** The inner loop, [for _, ct := range pod.Spec.Containers]; it answers
    [true] when it enqueued the pod and made [handleObject] return. *)
Fixpoint scanContainers (pod : v1.Pod) (cts : list v1.Container) : M W bool :=
  match cts with
  | [] => ret false
  | ct :: rest =>
      r <- GetLogs (metav1.Namespace (v1.pod_meta pod))
                   (metav1.Name (v1.pod_meta pod)) (v1.ct_Name ct) ;;
      match r with
      | StreamFailed err =>
          klog SevError "Failed to get logs: %s" [Error err] ;;;
          scanContainers pod rest
      | CopyFailed err =>
          klog SevError "Failed to read logs: %s" [Error err] ;;;
          scanContainers pod rest
      | Copied content closeErr =>
          when (Nat.eqb (String.length content) 0)
               (klog SevInfoV4 "Empty log" []) ;;;
          match closeErr with
          | Some err => klog SevError "Failed to close response body: %s" [Error err]
          | None => ret tt
          end ;;;
          if String.eqb content errorMessage
          then enqueuePod pod ;;; ret true
          else scanContainers pod rest
      end
  end.

(** The outer loop, [for _, cs := range pod.Status.ContainerStatuses]. *)
Fixpoint scanStatuses (pod : v1.Pod) (css : list v1.ContainerStatus) : M W unit :=
  match css with
  | [] => ret tt
  | cs :: rest =>
      if isCrashLoopStatus cs
      then returned <- scanContainers pod (v1.Containers (v1.Spec pod)) ;;
           if (returned : bool) then ret tt else scanStatuses pod rest
      else scanStatuses pod rest
  end.

Definition handleObject (pod : v1.Pod) : M W unit :=
  scanStatuses pod (v1.ContainerStatuses (v1.Status pod)).

(** *** The event handlers registered by NewArchSchedulingController *)

Definition AddFunc (obj : v1.Pod) : M W unit := handleObject obj.

Definition UpdateFunc (old new : v1.Pod) : M W unit :=
  let newPod := new in
  let oldPod := old in
  if String.eqb (metav1.ResourceVersion (v1.pod_meta newPod))
                (metav1.ResourceVersion (v1.pod_meta oldPod))
  then ret tt
  else handleObject new.

(** *** lowercaseAndPluralise *)

Definition lowercaseAndPluralise (s : string) : string := pluralName s.

(** *** getOriginControllerObject *)

(** The recursion follows owner references for as long as the API server
    answers with owners, so the embedding takes fuel: one unit per call. *)
Fixpoint getOriginControllerObject (fuel : nat) (obj : RuntimeObject) (kind : string)
  : M W (error + controllerObject) :=
  match fuel with
  | O => outOfFuel
  | S fuel' =>
      match obj with
      | RNoMeta => panic "interface conversion: interface is not metav1.Object"
      | RObject object =>
          match metav1.GetControllerOf object with
          | Some ownerRef =>
              r <- RESTGet (lowercaseAndPluralise (metav1.ref_Kind ownerRef))
                           (metav1.Namespace object) (metav1.ref_Name ownerRef) ;;
              match r with
              | inl err => ret (inl err)
              | inr res => getOriginControllerObject fuel' res (metav1.ref_Kind ownerRef)
              end
          | None =>
              ret (inr {| kind := kind;
                          name := metav1.Name object;
                          namespace := metav1.Namespace object |})
          end
      end
  end.

(** *** patchToControllerObject *)

Definition patchToControllerObject (obj : controllerObject) (patch : string)
  : M W (option error) :=
  r <- RESTPatch (namespace obj) (lowercaseAndPluralise (kind obj)) (name obj) patch ;;
  match r with
  | Some err => ret (Some err)
  | None => ret None
  end.

(** *** reSchedulePod *)

Definition reSchedulePod (fuel : nat) (key : string) : M W (option error) :=
  match cache.SplitMetaNamespaceKey key with
  | inl _ =>
      HandleError "Invalid resource key: %s" [key] ;;;
      ret None
  | inr (ns, nm) =>
      r <- PodsGet ns nm ;;
      match r with
      | inl err =>
          if IsNotFound err
          then HandleError "'%s' pod no longer exists" [key] ;;; ret None
          else ret (Some err)
      | inr pod =>
          r <- getOriginControllerObject fuel (RObject (v1.pod_meta pod)) (v1.Kind pod) ;;
          match r with
          | inl err => ret (Some err)
          | inr cobj =>
              r <- NodesGet (v1.NodeName (v1.Spec pod)) ;;
              match r with
              | inl err => ret (Some err)
              | inr node =>
                  let patchString :=
                    fmt.Sprintf patchJSON
                      [metav1.label (metav1.Labels (v1.node_meta node))
                                    "beta.kubernetes.io/arch"] in
                  r <- patchToControllerObject cobj patchString ;;
                  match r with
                  | Some err => ret (Some err)
                  | None => ret None
                  end
              end
          end
      end
  end.

(** *** processEnqueuedItem *)

(** The function literal of [processEnqueuedItem], with its deferred
    [workqueue.Done]. *)
Definition processItem (fuel : nat) (obj : Item) : M W (option error) :=
  defer (workqueue_Done obj)
    match obj with
    | ItemOther goSyntax =>
        workqueue_Forget obj ;;;
        HandleError "Expected the enqueued item is string but got %#v" [goSyntax] ;;;
        ret None
    | ItemString key =>
        r <- reSchedulePod fuel key ;;
        match r with
        | Some err =>
            workqueue_AddRateLimited (ItemString key) ;;;
            ret (Some {| Error := fmt.Sprintf
                           "Failed to patch to reschedule '%s' pod : %s, requeuing"
                           [key; Error err];
                         IsNotFound := false |})
        | None =>
            workqueue_Forget obj ;;;
            klog SevInfo "Successfully patch to reschedule '%s'" [key] ;;;
            ret None
        end
    end.

Definition processEnqueuedItem (fuel : nat) : M W bool :=
  got <- workqueue_Get ;;
  let '(obj, shutdown) := got in
  if (shutdown : bool) then ret false
  else
    r <- processItem fuel obj ;;
    match r with
    | Some err => HandleError "%s" [Error err] ;;; ret true
    | None => ret true
    end.

(** The loop of [Run]: [for c.processEnqueuedItem() {}]; [rounds] bounds
    the iterations the embedding follows. *)
Fixpoint workerLoop (rounds fuel : nat) : M W unit :=
  match rounds with
  | O => outOfFuel
  | S rounds' =>
      continue <- processEnqueuedItem fuel ;;
      if (continue : bool) then workerLoop rounds' fuel else ret tt
  end.

End controller.

(** ** What a trace shows *)

Definition isGetLogs (e : Event) : bool :=
  match e with EvGetLogs _ _ _ _ => true | _ => false end.

(** The container whose log a [GetLogs] event fetched. *)
Definition fetchedContainer (e : Event) : option string :=
  match e with EvGetLogs _ _ container _ => Some container | _ => None end.

Definition fetchedContainers (evs : list Event) : list string :=
  omap fetchedContainer evs.

(** A fetch whose captured text is the signature. *)
Definition isSignatureCapture (e : Event) : bool :=
  match e with
  | EvGetLogs _ _ _ (Copied content _) => String.eqb content errorMessage
  | _ => false
  end.

Definition isQueueAdd (e : Event) : bool :=
  match e with EvQueueAdd _ => true | _ => false end.

(** Neither a signature capture nor an enqueue. *)
Definition quiet (e : Event) : bool :=
  negb (isSignatureCapture e) && negb (isQueueAdd e).

(** The work key [enqueuePod] adds for a pod. *)
Definition podKey (pod : v1.Pod) : string :=
  match cache.MetaNamespaceKeyFunc (v1.pod_meta pod) with
  | inr key => key
  | inl _ => EmptyString
  end.

(** The pod was put on the work queue. *)
Definition enqueued (pod : v1.Pod) (evs : list Event) : Prop :=
  In (EvQueueAdd (ItemString (podKey pod))) evs.

Definition isKlog (e : Event) : bool :=
  match e with EvKlog _ _ => true | _ => false end.

(** A run with [t] put before its events. *)
Definition prepend {W A} (t : list Event) (r : Outcome A * W * list Event)
  : Outcome A * W * list Event :=
  (outcome r, world r, t ++ events r).

(** The events of a fetch that copied [content]: the fetch itself, the
    empty-log note and the close failure, if any. *)
Definition copiedEvents (ns pod container content : string) (closeErr : option error)
  : list Event :=
  EvGetLogs ns pod container (Copied content closeErr)
  :: (if Nat.eqb (String.length content) 0
      then [EvKlog SevInfoV4 (fmt.Sprintf "Empty log" [])] else [])
  ++ match closeErr with
     | Some err =>
         [EvKlog SevError (fmt.Sprintf "Failed to close response body: %s" [Error err])]
     | None => []
     end.

(** The containers [handleObject] would fetch, in order, if no log matched:
    all the containers of the pod's spec, once for every container status
    that is waiting in a crash loop. *)
Definition scanOrder (pod : v1.Pod) (css : list v1.ContainerStatus) : list string :=
  flat_map (fun cs => if isCrashLoopStatus cs
                      then map v1.ct_Name (v1.Containers (v1.Spec pod)) else [])
           css.

(** The shape of a scan's trace over the containers [order]: without a
    match every event is quiet and the fetches are exactly [order]; with a
    match the trace is quiet up to the first signature capture, which is
    followed by log notes and the enqueue only. *)
Definition ScanShape (pod : v1.Pod) (order : list string) (matched : bool)
  (evs : list Event) : Prop :=
  if matched
  then exists pre c closeErr notes rest,
      evs = pre ++ EvGetLogs (metav1.Namespace (v1.pod_meta pod))
                             (metav1.Name (v1.pod_meta pod)) c
                             (Copied errorMessage closeErr)
                   :: notes ++ [EvQueueAdd (ItemString (podKey pod))]
      /\ forallb quiet pre = true
      /\ forallb isKlog notes = true
      /\ order = fetchedContainers pre ++ c :: rest
  else forallb quiet evs = true /\ fetchedContainers evs = order.

(** ** Owner chains and what a trace shows of the queue *)

Section owner_chain.

Context {W : Type} `{!Clientset W} `{!PluralNamer}.

(** [OwnerChain w obj k n w' top topKind]: from world [w], following the
    controller references upward from [obj] takes [n] fetches, each answered
    with an object, and ends in world [w'] at [top], which has no controller
    reference.  [topKind] is the kind under which [top] was reached: the kind
    of the last reference followed, or [k] when [obj] itself is the top. *)
Inductive OwnerChain
  : W -> metav1.ObjectMeta -> string -> nat -> W -> metav1.ObjectMeta -> string -> Prop :=
| chain_top w obj k :
    metav1.GetControllerOf obj = None ->
    OwnerChain w obj k 0 w obj k
| chain_hop w obj k ref w1 owner n w' top topKind :
    metav1.GetControllerOf obj = Some ref ->
    restGet (lowercaseAndPluralise (metav1.ref_Kind ref)) (metav1.Namespace obj)
            (metav1.ref_Name ref) w = (inr (RObject owner), w1) ->
    OwnerChain w1 owner (metav1.ref_Kind ref) n w' top topKind ->
    OwnerChain w obj k (S n) w' top topKind.

(** [WalkEnds w obj n]: from world [w] the walk upward from [obj] ends within
    [n] fetches, at an object without controller reference, at a fetch that
    fails, or at an answer that is no [metav1.Object]. *)
Inductive WalkEnds : W -> RuntimeObject -> nat -> Prop :=
| ends_no_meta w n : WalkEnds w RNoMeta n
| ends_top w obj n :
    metav1.GetControllerOf obj = None -> WalkEnds w (RObject obj) n
| ends_hop w obj ref n :
    metav1.GetControllerOf obj = Some ref ->
    (forall res w1,
        restGet (lowercaseAndPluralise (metav1.ref_Kind ref)) (metav1.Namespace obj)
                (metav1.ref_Name ref) w = (inr res, w1) ->
        WalkEnds w1 res n) ->
    WalkEnds w (RObject obj) (S n).

End owner_chain.

Definition isRestGet (e : Event) : bool :=
  match e with EvRestGet _ _ _ _ => true | _ => false end.

Definition isDone (e : Event) : bool :=
  match e with EvQueueDone _ => true | _ => false end.

(** The verdict on an item: [Forget] or [AddRateLimited]. *)
Definition isVerdict (e : Event) : bool :=
  match e with EvQueueForget _ | EvQueueAddRateLimited _ => true | _ => false end.

(** An owner fetch, a node read or a patch that failed. *)
Definition isFailure (e : Event) : bool :=
  match e with
  | EvRestGet _ _ _ (inl _) | EvNodeGet _ (inl _) | EvRestPatch _ _ _ _ (Some _) => true
  | _ => false
  end.

(** A patch that was applied. *)
Definition isPatched (e : Event) : bool :=
  match e with EvRestPatch _ _ _ _ None => true | _ => false end.

(** A call on the work queue other than [Get]. *)
Definition isQueueCall (e : Event) : bool :=
  match e with
  | EvQueueAdd _ | EvQueueDone _ | EvQueueForget _ | EvQueueAddRateLimited _ => true
  | _ => false
  end.

(** A call that reads a node or patches an object. *)
Definition isNodeOrPatch (e : Event) : bool :=
  match e with EvNodeGet _ _ | EvRestPatch _ _ _ _ _ => true | _ => false end.

(** How many events of a trace satisfy [p]. *)
Definition count (p : Event -> bool) (evs : list Event) : nat :=
  length (List.filter p evs).

Section reconciler_runs.

Context {W : Type} `{!Clientset W} `{!PluralNamer}.

(** The run of [reSchedulePod] from the node read on, once the owner walk
    has returned the controller object. *)
Definition patchOwner (pod : v1.Pod) (cobj : controllerObject) (w : W)
  : Outcome (option error) * W * list Event :=
  let nodeName := v1.NodeName (v1.Spec pod) in
  let got := nodeGet nodeName w in
  match fst got with
  | inl err => (Ret (Some err), snd got, [EvNodeGet nodeName (inl err)])
  | inr node =>
      let body := fmt.Sprintf patchJSON
                    [metav1.label (metav1.Labels (v1.node_meta node))
                                  "beta.kubernetes.io/arch"] in
      let patched := restPatch (namespace cobj) (lowercaseAndPluralise (kind cobj))
                               (name cobj) body (snd got) in
      (Ret (fst patched), snd patched,
       [EvNodeGet nodeName (inr node);
        EvRestPatch (namespace cobj) (lowercaseAndPluralise (kind cobj)) (name cobj) body
                    (fst patched)])
  end.

(** The run of [reSchedulePod] once the lister has answered with the pod. *)
Definition reconcilePod (fuel : nat) (pod : v1.Pod) (w : W)
  : Outcome (option error) * W * list Event :=
  let walk := getOriginControllerObject fuel (RObject (v1.pod_meta pod)) (v1.Kind pod) w in
  match outcome walk with
  | Ret (inl err) => (Ret (Some err), world walk, events walk)
  | Ret (inr cobj) => prepend (events walk) (patchOwner pod cobj (world walk))
  | Panic msg => (Panic msg, world walk, events walk)
  | OutOfFuel => (OutOfFuel, world walk, events walk)
  end.

End reconciler_runs.

(** ** JSON documents and how a decoder reads them *)

Module json.

#[local] Unset Elimination Schemes.

Inductive value :=
| Null
| Bool (b : bool)
| Number (literal : string)
| Str (s : string)
| Array (items : list value)
| Object (members : list (string * value)).

Inductive token :=
| TBeginObject | TEndObject | TBeginArray | TEndArray | TColon | TComma
| TStr (s : string)
| TNumber (literal : string)
| TTrue | TFalse | TNull.

Inductive mode := Outside | InString | InNumber.

Definition isSpace (c : ascii) : bool :=
  Ascii.eqb c " " || Ascii.eqb c text.LF || Ascii.eqb c "013"%char || Ascii.eqb c "009"%char.

Definition isNumberChar (c : ascii) : bool :=
  (Nat.leb 48 (nat_of_ascii c) && Nat.leb (nat_of_ascii c) 57)
  || Ascii.eqb c "-" || Ascii.eqb c "+" || Ascii.eqb c "." || Ascii.eqb c "e"
  || Ascii.eqb c "E".

(** A character that stands for itself inside a string literal. *)
Definition plainChar (c : ascii) : bool :=
  negb (Ascii.eqb c text.DQ) && negb (Ascii.eqb c "\") && Nat.leb 32 (nat_of_ascii c).

(** The character an escape [\e] stands for ([\u] escapes are not read). *)
Definition unescape (e : ascii) : option ascii :=
  if Ascii.eqb e text.DQ then Some text.DQ
  else if Ascii.eqb e "\" then Some "\"%char
  else if Ascii.eqb e "/" then Some "/"%char
  else if Ascii.eqb e "n" then Some text.LF
  else if Ascii.eqb e "r" then Some "013"%char
  else if Ascii.eqb e "t" then Some "009"%char
  else None.

(** Put [c] in front of the string or number the tokens start with. *)
Definition extend (c : ascii) (toks : option (list token)) : option (list token) :=
  match toks with
  | Some (TStr s :: rest) => Some (TStr (String c s) :: rest)
  | Some (TNumber s :: rest) => Some (TNumber (String c s) :: rest)
  | _ => None
  end.

Definition emit (t : token) (toks : option (list token)) : option (list token) :=
  match toks with
  | Some rest => Some (t :: rest)
  | None => None
  end.

(** The lexer.  Inside a string or a number the tokens it answers start
    with that string or number, read from the current position on. *)
Fixpoint lex (m : mode) (s : string) : option (list token) :=
  match s with
  | EmptyString =>
      match m with
      | Outside => Some []
      | InString => None
      | InNumber => Some [TNumber EmptyString]
      end
  | String c rest =>
      let outside (_ : unit) :=
        if isSpace c then lex Outside rest
        else if Ascii.eqb c "{" then emit TBeginObject (lex Outside rest)
        else if Ascii.eqb c "}" then emit TEndObject (lex Outside rest)
        else if Ascii.eqb c "[" then emit TBeginArray (lex Outside rest)
        else if Ascii.eqb c "]" then emit TEndArray (lex Outside rest)
        else if Ascii.eqb c ":" then emit TColon (lex Outside rest)
        else if Ascii.eqb c "," then emit TComma (lex Outside rest)
        else if Ascii.eqb c text.DQ then lex InString rest
        else if isNumberChar c then extend c (lex InNumber rest)
        else if Ascii.eqb c "t" then
          match rest with
          | String c1 (String c2 (String c3 rest')) =>
              if Ascii.eqb c1 "r" && Ascii.eqb c2 "u" && Ascii.eqb c3 "e"
              then emit TTrue (lex Outside rest') else None
          | _ => None
          end
        else if Ascii.eqb c "f" then
          match rest with
          | String c1 (String c2 (String c3 (String c4 rest'))) =>
              if Ascii.eqb c1 "a" && Ascii.eqb c2 "l" && Ascii.eqb c3 "s" && Ascii.eqb c4 "e"
              then emit TFalse (lex Outside rest') else None
          | _ => None
          end
        else if Ascii.eqb c "n" then
          match rest with
          | String c1 (String c2 (String c3 rest')) =>
              if Ascii.eqb c1 "u" && Ascii.eqb c2 "l" && Ascii.eqb c3 "l"
              then emit TNull (lex Outside rest') else None
          | _ => None
          end
        else None in
      match m with
      | Outside => outside tt
      | InString =>
          if Ascii.eqb c text.DQ then emit (TStr EmptyString) (lex Outside rest)
          else if Ascii.eqb c "\" then
            match rest with
            | String e rest' =>
                match unescape e with
                | Some d => extend d (lex InString rest')
                | None => None
                end
            | EmptyString => None
            end
          else if Nat.leb 32 (nat_of_ascii c) then extend c (lex InString rest)
          else None
      | InNumber =>
          if isNumberChar c then extend c (lex InNumber rest)
          else emit (TNumber EmptyString) (outside tt)
      end
  end.

(** The parser, by recursive descent over the tokens; [fuel] bounds the
    values read. *)
Fixpoint parseValue (fuel : nat) (toks : list token) : option (value * list token) :=
  match fuel with
  | O => None
  | S fuel' =>
      match toks with
      | TBeginObject :: TEndObject :: rest => Some (Object [], rest)
      | TBeginObject :: rest =>
          match parseMembers fuel' rest with
          | Some (members, rest') => Some (Object members, rest')
          | None => None
          end
      | TBeginArray :: TEndArray :: rest => Some (Array [], rest)
      | TBeginArray :: rest =>
          match parseItems fuel' rest with
          | Some (items, rest') => Some (Array items, rest')
          | None => None
          end
      | TStr s :: rest => Some (Str s, rest)
      | TNumber n :: rest => Some (Number n, rest)
      | TTrue :: rest => Some (Bool true, rest)
      | TFalse :: rest => Some (Bool false, rest)
      | TNull :: rest => Some (Null, rest)
      | _ => None
      end
  end

with parseItems (fuel : nat) (toks : list token) : option (list value * list token) :=
  match fuel with
  | O => None
  | S fuel' =>
      match parseValue fuel' toks with
      | Some (item, TComma :: rest) =>
          match parseItems fuel' rest with
          | Some (items, rest') => Some (item :: items, rest')
          | None => None
          end
      | Some (item, TEndArray :: rest) => Some ([item], rest)
      | _ => None
      end
  end

with parseMembers (fuel : nat) (toks : list token)
  : option (list (string * value) * list token) :=
  match fuel with
  | O => None
  | S fuel' =>
      match toks with
      | TStr key :: TColon :: rest =>
          match parseValue fuel' rest with
          | Some (v, TComma :: rest') =>
              match parseMembers fuel' rest' with
              | Some (members, rest'') => Some ((key, v) :: members, rest'')
              | None => None
              end
          | Some (v, TEndObject :: rest') => Some ([(key, v)], rest')
          | _ => None
          end
      | _ => None
      end
  end.

(** A whole document: the tokens of one value and nothing after it. *)
Definition parse (s : string) : option value :=
  match lex Outside s with
  | Some toks =>
      match parseValue (S (length toks)) toks with
      | Some (v, []) => Some v
      | _ => None
      end
  | None => None
  end.

End json.

Fixpoint allChars (p : ascii -> bool) (s : string) : bool :=
  match s with
  | EmptyString => true
  | String c rest => p c && allChars p rest
  end.

(** No slash in the text. *)
Definition slashFree (s : string) : bool :=
  allChars (fun c => negb (Ascii.eqb c "/")) s.

(** The text of a format before its first verb [%s], and after it. *)
Fixpoint beforeVerb (format : string) : string :=
  match format with
  | EmptyString => EmptyString
  | String "%" (String "s" _) => EmptyString
  | String c rest => String c (beforeVerb rest)
  end.

Fixpoint afterVerb (format : string) : string :=
  match format with
  | EmptyString => EmptyString
  | String "%" (String "s" rest) => rest
  | String _ rest => afterVerb rest
  end.

(** The node-affinity types of the API, as far as the patch names them. *)
Record NodeSelectorRequirement := {
  Key : string;
  Operator : string;
  Values : list string
}.

Record NodeSelectorTerm := {
  MatchExpressions : list NodeSelectorRequirement
}.

Definition encodeRequirement (r : NodeSelectorRequirement) : json.value :=
  json.Object [("key", json.Str (Key r));
               ("operator", json.Str (Operator r));
               ("values", json.Array (map json.Str (Values r)))].

Definition encodeTerm (t : NodeSelectorTerm) : json.value :=
  json.Object [("matchExpressions", json.Array (map encodeRequirement (MatchExpressions t)))].

(** An object with the single member [k]. *)
Definition field (k : string) (v : json.value) : json.value := json.Object [(k, v)].

(** A partial update of an object with a pod template: the template's
    required-during-scheduling node affinity has the node selector terms
    [terms]. *)
Definition requiredNodeAffinity (terms : list NodeSelectorTerm) : json.value :=
  field "spec"
    (field "template"
       (field "spec"
          (field "affinity"
             (field "nodeAffinity"
                (field "requiredDuringSchedulingIgnoredDuringExecution"
                   (field "nodeSelectorTerms" (json.Array (map encodeTerm terms)))))))).

(** The label [beta.kubernetes.io/arch] must not be in the set {[arch]}. *)
Definition notOnArchitecture (arch : string) : NodeSelectorRequirement :=
  {| Key := "beta.kubernetes.io/arch"; Operator := "NotIn"; Values := [arch] |}.

Definition doc (v : string) : json.value :=
  requiredNodeAffinity [{| MatchExpressions := [notOnArchitecture v] |}].



(** ** Label values (apimachinery, util/validation) *)

Module validation.

Definition between (lo hi : nat) (c : ascii) : bool :=
  Nat.leb lo (nat_of_ascii c) && Nat.leb (nat_of_ascii c) hi.

(** [A-Za-z0-9] *)
Definition isAlphaNum (c : ascii) : bool :=
  between 48 57 c || between 65 90 c || between 97 122 c.

(** [-A-Za-z0-9_.] *)
Definition isNameChar (c : ascii) : bool :=
  isAlphaNum c || Ascii.eqb c "-" || Ascii.eqb c "_" || Ascii.eqb c ".".

Fixpoint lastChar (c : ascii) (s : string) : ascii :=
  match s with
  | EmptyString => c
  | String c' rest => lastChar c' rest
  end.

(** [IsValidLabelValue]: at most 63 characters; empty, or beginning and
    ending with an alphanumeric character with name characters between. *)
Definition IsValidLabelValue (value : string) : bool :=
  Nat.leb (String.length value) 63
  && match value with
     | EmptyString => true
     | String c rest =>
         isAlphaNum c && allChars isNameChar rest && isAlphaNum (lastChar c rest)
     end.

End validation.

(** C1 as the specification words it: the pod is enqueued only when the
    captured log of a container that is itself in a crash loop is the
    signature. *)
Definition enqueuesOnlyOnCrashLoopLog {W : Type} `{!Clientset W} `{!Workqueue W}
  (pod : v1.Pod) (w : W) : Prop :=
  enqueued pod (events (handleObject pod w)) ->
  exists cs closeErr,
    In cs (v1.ContainerStatuses (v1.Status pod))
    /\ isCrashLoopStatus cs = true
    /\ In (EvGetLogs (metav1.Namespace (v1.pod_meta pod)) (metav1.Name (v1.pod_meta pod))
                     (v1.cs_Name cs) (Copied errorMessage closeErr))
          (events (handleObject pod w)).

(** C3 as the specification words it: a log is fetched only of a container
    whose own status is waiting with reason CrashLoopBackOff. *)
Definition fetchesOnlyCrashLoopContainers {W : Type} `{!Clientset W} `{!Workqueue W}
  (pod : v1.Pod) (w : W) : Prop :=
  forall ns nm c r,
    In (EvGetLogs ns nm c r) (events (handleObject pod w)) ->
    exists cs, In cs (v1.ContainerStatuses (v1.Status pod))
               /\ v1.cs_Name cs = c /\ isCrashLoopStatus cs = true.

(** C10 as the specification words it: for an item handed out while the
    queue is not shutting down, the run calls Done once on it, calls one of
    Forget and AddRateLimited once on it, and returns true. *)
Definition doneOnceOneVerdict {W : Type} `{!Clientset W} `{!PodLister W} `{!Workqueue W}
  `{!PluralNamer} (fuel : nat) (w : W) : Prop :=
  forall item w0,
    wqGet w = ((item, false), w0) ->
    outcome (processEnqueuedItem fuel w) = Ret true
    /\ List.filter isDone (events (processEnqueuedItem fuel w)) = [EvQueueDone item]
    /\ (List.filter isVerdict (events (processEnqueuedItem fuel w)) = [EvQueueForget item]
        \/ List.filter isVerdict (events (processEnqueuedItem fuel w))
           = [EvQueueAddRateLimited item]).

(** ** Clusters that answer from fixed tables *)

Module scenario.

Record Cluster := {
  logsOf : string -> string -> string -> LogStream;
  podOf : string -> string -> error + v1.Pod;
  objectOf : string -> string -> string -> error + RuntimeObject;
  nodeOf : string -> error + v1.Node;
  patchOf : string -> string -> string -> string -> option error;
  nextItem : Item * bool
}.

#[export] Instance cluster_clientset : Clientset Cluster := {|
  podLogs ns pod container w := (logsOf w ns pod container, w);
  restGet resource ns nm w := (objectOf w resource ns nm, w);
  nodeGet nm w := (nodeOf w nm, w);
  restPatch ns resource nm body w := (patchOf w ns resource nm body, w)
|}.

#[export] Instance cluster_lister : PodLister Cluster := {|
  listerGet ns nm w := (podOf w ns nm, w)
|}.

#[export] Instance cluster_queue : Workqueue Cluster := {|
  wqGet w := (nextItem w, w);
  wqAdd _ w := w;
  wqDone _ w := w;
  wqForget _ w := w;
  wqAddRateLimited _ w := w
|}.

#[export] Instance kinds : PluralNamer := {|
  pluralName k :=
    if String.eqb k "ReplicaSet" then "replicasets"
    else if String.eqb k "Deployment" then "deployments"
    else if String.eqb k "Pod" then "pods"
    else k
|}.

Definition notFound : error := {| Error := "not found"; IsNotFound := true |}.
Definition timeout : error := {| Error := "i/o timeout"; IsNotFound := false |}.

Definition meta (ns nm : string) (owners : list metav1.OwnerReference)
  : metav1.ObjectMeta :=
  {| metav1.Name := nm; metav1.Namespace := ns; metav1.ResourceVersion := "1";
     metav1.Labels := ∅; metav1.OwnerReferences := owners |}.

Definition controlledBy (k nm : string) : metav1.OwnerReference :=
  {| metav1.ref_APIVersion := "apps/v1"; metav1.ref_Kind := k;
     metav1.ref_Name := nm; metav1.ref_Controller := Some true |}.

Definition crashLoop : v1.ContainerState :=
  {| v1.Waiting := Some {| v1.Reason := "CrashLoopBackOff"; v1.Message := "back-off" |};
     v1.Running := false; v1.Terminated := false |}.

Definition running : v1.ContainerState :=
  {| v1.Waiting := None; v1.Running := true; v1.Terminated := false |}.

Definition app : v1.Container := {| v1.ct_Name := "app"; v1.Image := "app:1" |}.
Definition sidecar : v1.Container := {| v1.ct_Name := "sidecar"; v1.Image := "proxy:1" |}.

(** The pod of the end-to-end scenario: ns/pod-a, owned by ReplicaSet rs-a,
    owned by Deployment deploy-a, its sole container in a crash loop, on a
    node of architecture arm64. *)
Definition podA : v1.Pod :=
  {| v1.Kind := "Pod";
     v1.pod_meta := meta "ns" "pod-a" [controlledBy "ReplicaSet" "rs-a"];
     v1.Spec := {| v1.NodeName := "node-1"; v1.Containers := [app] |};
     v1.Status := {| v1.ContainerStatuses :=
                       [{| v1.cs_Name := "app"; v1.State := crashLoop |}] |} |}.

(** A pod with a running sidecar before the crash-looping container. *)
Definition podB : v1.Pod :=
  {| v1.Kind := "Pod";
     v1.pod_meta := meta "ns" "pod-b" [controlledBy "ReplicaSet" "rs-a"];
     v1.Spec := {| v1.NodeName := "node-1"; v1.Containers := [sidecar; app] |};
     v1.Status := {| v1.ContainerStatuses :=
                       [{| v1.cs_Name := "sidecar"; v1.State := running |};
                        {| v1.cs_Name := "app"; v1.State := crashLoop |}] |} |}.

Definition rsA : metav1.ObjectMeta := meta "ns" "rs-a" [controlledBy "Deployment" "deploy-a"].
Definition deployA : metav1.ObjectMeta := meta "ns" "deploy-a" [].

Definition node1 : v1.Node :=
  {| v1.node_meta :=
       {| metav1.Name := "node-1"; metav1.Namespace := EmptyString;
          metav1.ResourceVersion := "7";
          metav1.Labels := {[ "beta.kubernetes.io/arch" := "arm64" ]};
          metav1.OwnerReferences := [] |} |}.

Definition pods (ns nm : string) : error + v1.Pod :=
  if String.eqb ns "ns" && String.eqb nm "pod-a" then inr podA
  else if String.eqb ns "ns" && String.eqb nm "pod-b" then inr podB
  else inl notFound.

Definition owners (resource ns nm : string) : error + RuntimeObject :=
  if String.eqb resource "replicasets" && String.eqb nm "rs-a" then inr (RObject rsA)
  else if String.eqb resource "deployments" && String.eqb nm "deploy-a"
       then inr (RObject deployA)
       else inl notFound.

Definition nodes (nm : string) : error + v1.Node :=
  if String.eqb nm "node-1" then inr node1 else inl notFound.

(** The log of container app, and that of any other container. *)
Definition logTable (appLog otherLog : LogStream) (container : string) : LogStream :=
  if String.eqb container "app" then appLog else otherLog.

(** The cluster of the scenario; the logs, the answers to owner fetches,
    node reads and patches, and the next queue item vary. *)
Definition cluster (logs : string -> LogStream)
  (objects : string -> string -> string -> error + RuntimeObject)
  (nodeTable : string -> error + v1.Node) (patched : option error)
  (next : Item) : Cluster :=
  {| logsOf _ _ container := logs container;
     podOf := pods;
     objectOf := objects;
     nodeOf := nodeTable;
     patchOf _ _ _ _ := patched;
     nextItem := (next, false) |}.

(** All is well but for the log of app. *)
Definition healthy (appLog : LogStream) : Cluster :=
  cluster (logTable appLog (Copied "started" None)) owners nodes None
          (ItemString "ns/pod-a").

(** The log of the sidecar is the signature, the log of app is not. *)
Definition sidecarMatches : Cluster :=
  cluster (logTable (Copied "some other crash" None) (Copied errorMessage None))
          owners nodes None (ItemString "ns/pod-b").

(** A cluster whose node reads time out. *)
Definition nodesDown : Cluster :=
  cluster (logTable (Copied errorMessage None) (Copied "started" None))
          owners (fun _ => inl timeout) None (ItemString "ns/pod-a").

(** A cluster whose owner fetches time out. *)
Definition ownersDown : Cluster :=
  cluster (logTable (Copied errorMessage None) (Copied "started" None))
          (fun _ _ _ => inl timeout) nodes None (ItemString "ns/pod-a").

(** A cluster that hands out a key with two slashes. *)
Definition badKey : Cluster :=
  cluster (logTable (Copied errorMessage None) (Copied "started" None))
          owners nodes None (ItemString "a/b/c").

End scenario.

(** ** What [handleObject] may call *)

(** The log of one of the containers [names] of the pod, a log note, or
    the pod's key put on the queue. *)
Definition scanCall (pod : v1.Pod) (names : list string) (e : Event) : bool :=
  match e with
  | EvGetLogs ns nm c _ =>
      String.eqb ns (metav1.Namespace (v1.pod_meta pod))
      && String.eqb nm (metav1.Name (v1.pod_meta pod))
      && existsb (String.eqb c) names
  | EvKlog _ _ => true
  | EvQueueAdd item =>
      match item with
      | ItemString key => String.eqb key (podKey pod)
      | ItemOther _ => false
      end
  | _ => false
  end.

(** How many container statuses are waiting in a crash loop. *)
Definition crashLoops (css : list v1.ContainerStatus) : nat :=
  length (List.filter isCrashLoopStatus css).

(** ** What [reSchedulePod] may call, and which references the walk follows *)

Definition isListerGet (e : Event) : bool :=
  match e with EvListerGet _ _ _ => true | _ => false end.

Definition isHandleError (e : Event) : bool :=
  match e with EvHandleError _ => true | _ => false end.

Definition isPatchCall (e : Event) : bool :=
  match e with EvRestPatch _ _ _ _ _ => true | _ => false end.

(** A read of the lister, of an owner or of a node, a patch, or an error
    report. *)
Definition reconcileCall (e : Event) : bool :=
  isListerGet e || isRestGet e || isNodeOrPatch e || isHandleError e.

(** A read that was answered: the pod by the lister, an owner, the node. *)
Definition isAnsweredRead (e : Event) : bool :=
  match e with
  | EvListerGet _ _ (inr _) | EvRestGet _ _ _ (inr _) | EvNodeGet _ (inr _) => true
  | _ => false
  end.

(** [ref.Controller != nil && *ref.Controller] *)
Definition isController (ref : metav1.OwnerReference) : bool :=
  match metav1.ref_Controller ref with
  | Some true => true
  | _ => false
  end.

(** The number of slashes in a key. *)
Fixpoint slashes (s : string) : nat :=
  match s with
  | EmptyString => 0
  | String c rest => (if Ascii.eqb c "/" then 1 else 0) + slashes rest
  end.
(** The traces [reSchedulePod] can leave, and its result in each case. *)
Inductive ReconcileTrace : list Event -> Outcome (option error) -> Prop :=
| trace_bad_key msg : ReconcileTrace [EvHandleError msg] (Ret None)
| trace_gone ns nm err msg :
    ReconcileTrace [EvListerGet ns nm (inl err); EvHandleError msg] (Ret None)
| trace_lister_error ns nm err :
    ReconcileTrace [EvListerGet ns nm (inl err)] (Ret (Some err))
| trace_walk ns nm pod fetches out :
    forallb isRestGet fetches = true ->
    out <> Ret None ->
    ReconcileTrace (EvListerGet ns nm (inr pod) :: fetches) out
| trace_node_error ns nm pod fetches node err :
    forallb isRestGet fetches = true -> forallb isAnsweredRead fetches = true ->
    ReconcileTrace (EvListerGet ns nm (inr pod) :: fetches ++ [EvNodeGet node (inl err)])
                   (Ret (Some err))
| trace_patch ns nm pod fetches nodeName node pns resource pnm body r :
    forallb isRestGet fetches = true -> forallb isAnsweredRead fetches = true ->
    ReconcileTrace (EvListerGet ns nm (inr pod)
                    :: fetches ++ [EvNodeGet nodeName (inr node);
                                   EvRestPatch pns resource pnm body r])
                   (Ret r).


(** ** Run *)

(** What [Run] calls besides the worker: the informer factory, the wait
    for the cache, and the shutdown of the queue. *)
Class Lifecycle (W : Type) := {
  (* informerFactory.Start(stopCh) *)
  informerStart : W -> W;
  (* cache.WaitForCacheSync(stopCh, HasSynced) *)
  waitForCacheSync : W -> bool * W;
  (* workqueue.ShutDown() *)
  wqShutDown : W -> W
}.

Inductive RunEvent :=
| Work (e : Event)                (* an event of the worker, or a log note *)
| EvInformerStart
| EvCacheSync (synced : bool)
| EvQueueShutDown
| EvCrash (msg : string)          (* runtime.HandleCrash reporting a panic *).

Definition isGetOrDone (e : Event) : bool :=
  match e with EvQueueGet _ _ | EvQueueDone _ => true | _ => false end.

(** An item handed out and marked done. *)
Definition served (item : Item) : list Event :=
  [EvQueueGet item false; EvQueueDone item].

Section run.

Context {W : Type} `{!Clientset W} `{!PodLister W} `{!Workqueue W} `{!PluralNamer}
        `{!Lifecycle W}.

(** The body of [Run], before its deferred calls. *)
Definition runBody (rounds fuel : nat) (w : W)
  : Outcome (option error) * W * list RunEvent :=
  let w1 := informerStart w in
  let started :=
    [EvInformerStart;
     Work (EvKlog SevInfo (fmt.Sprintf "Starting Arch scheduling controller" []));
     Work (EvKlog SevInfo (fmt.Sprintf "Waiting for informer caches to sync" []))] in
  let synced := waitForCacheSync w1 in
  if fst synced
  then
    let loop := workerLoop rounds fuel (snd synced) in
    (match outcome loop with
     | Ret _ => Ret None
     | Panic msg => Panic msg
     | OutOfFuel => OutOfFuel
     end,
     world loop,
     started ++ [EvCacheSync true] ++ map Work (events loop))
  else
    (Ret (Some {| Error := "Failed to wait for sync to cache"; IsNotFound := false |}),
     snd synced, started ++ [EvCacheSync false]).

(** [Run]: the body, then the deferred [workqueue.ShutDown], then the
    deferred [runtime.HandleCrash], which reports a panic and lets it go on. *)
Definition Run (rounds fuel : nat) (w : W) : Outcome (option error) * W * list RunEvent :=
  let body := runBody rounds fuel w in
  match fst (fst body) with
  | Ret r => (Ret r, wqShutDown (snd (fst body)), snd body ++ [EvQueueShutDown])
  | Panic msg =>
      (Panic msg, wqShutDown (snd (fst body)), snd body ++ [EvQueueShutDown; EvCrash msg])
  | OutOfFuel => body
  end.

End run.

(** ** Clusters with faults *)

Module faults.

Import scenario.

(** A cluster whose lister fails with an error that is not not-found. *)
Definition listerDown : Cluster :=
  {| logsOf _ _ _ := Copied "started" None;
     podOf _ _ := inl timeout;
     objectOf := owners;
     nodeOf := nodes;
     patchOf _ _ _ _ := None;
     nextItem := (ItemString "ns/pod-a", false) |}.



(** A cluster whose owner fetches are answered with a value that has no
    object metadata. *)
Definition strangers : Cluster :=
  cluster (logTable (Copied errorMessage None) (Copied "started" None))
          (fun _ _ _ => inr RNoMeta) nodes None (ItemString "ns/pod-a").

(** rs-a with a further owner that is no controller, listed first. *)
Definition rsAdopted : metav1.ObjectMeta :=
  meta "ns" "rs-a"
       [{| metav1.ref_APIVersion := "v1"; metav1.ref_Kind := "ConfigMap";
           metav1.ref_Name := "settings"; metav1.ref_Controller := Some false |};
        controlledBy "Deployment" "deploy-a"].

(** An object that names itself as its controller, and a cluster that
    answers every owner fetch with it. *)
Definition selfOwned : metav1.ObjectMeta :=
  meta "ns" "rs-loop" [controlledBy "ReplicaSet" "rs-loop"].

Definition looping : Cluster :=
  cluster (logTable (Copied errorMessage None) (Copied "started" None))
          (fun _ _ _ => inr (RObject selfOwned)) nodes None (ItemString "ns/pod-a").

(** A pod without owner, in a cluster whose lister knows only that pod. *)
Definition podC : v1.Pod :=
  {| v1.Kind := "Pod";
     v1.pod_meta := meta "ns" "pod-c" [];
     v1.Spec := {| v1.NodeName := "node-1"; v1.Containers := [app] |};
     v1.Status := {| v1.ContainerStatuses :=
                       [{| v1.cs_Name := "app"; v1.State := crashLoop |}] |} |}.

Definition orphans : Cluster :=
  {| logsOf _ _ _ := Copied errorMessage None;
     podOf _ _ := inr podC;
     objectOf := owners;
     nodeOf := nodes;
     patchOf _ _ _ _ := None;
     nextItem := (ItemString "ns/pod-c", false) |}.

(** A cluster whose queue hands out an item that is no string. *)
Definition oddItem : Cluster :=
  cluster (logTable (Copied errorMessage None) (Copied "started" None))
          owners nodes None (ItemOther "42").

End faults.

(** * Theorems *)

Section handleObject_facts.

Context {W : Type} `{!Clientset W} `{!PodLister W} `{!Workqueue W} `{!PluralNamer}.

Implicit Types (pod : v1.Pod) (w : W) (evs : list Event).

Lemma enqueuePod_run pod w :
  enqueuePod pod w
  = (Ret tt, wqAdd (ItemString (podKey pod)) w, [EvQueueAdd (ItemString (podKey pod))]).
Proof.
  unfold enqueuePod, podKey, cache.MetaNamespaceKeyFunc.
  destruct (Nat.ltb _ _); reflexivity.
Qed.

Lemma prepend_nil {A} (r : Outcome A * W * list Event) : prepend [] r = r.
Proof. destruct r as [[o w] t]. reflexivity. Qed.

Lemma bind_run {A B} (m : M W A) (k : A -> M W B) w :
  bind m k w =
  match outcome (m w) with
  | Ret a => prepend (events (m w)) (k a (world (m w)))
  | Panic msg => (Panic msg, world (m w), events (m w))
  | OutOfFuel => (OutOfFuel, world (m w), events (m w))
  end.
Proof.
  unfold bind, prepend, outcome, world, events.
  destruct (m w) as [[o w1] t1]. destruct o; simpl; try reflexivity.
  destruct (k a w1) as [[o2 w2] t2]. reflexivity.
Qed.

Lemma scanContainers_cons pod ct rest w :
  scanContainers pod (ct :: rest) w =
  let ns := metav1.Namespace (v1.pod_meta pod) in
  let nm := metav1.Name (v1.pod_meta pod) in
  let fetched := podLogs ns nm (v1.ct_Name ct) w in
  match fst fetched with
  | StreamFailed err =>
      prepend [EvGetLogs ns nm (v1.ct_Name ct) (StreamFailed err);
               EvKlog SevError (fmt.Sprintf "Failed to get logs: %s" [Error err])]
              (scanContainers pod rest (snd fetched))
  | CopyFailed err =>
      prepend [EvGetLogs ns nm (v1.ct_Name ct) (CopyFailed err);
               EvKlog SevError (fmt.Sprintf "Failed to read logs: %s" [Error err])]
              (scanContainers pod rest (snd fetched))
  | Copied content closeErr =>
      if String.eqb content errorMessage
      then (Ret true, wqAdd (ItemString (podKey pod)) (snd fetched),
            copiedEvents ns nm (v1.ct_Name ct) content closeErr
            ++ [EvQueueAdd (ItemString (podKey pod))])
      else prepend (copiedEvents ns nm (v1.ct_Name ct) content closeErr)
                   (scanContainers pod rest (snd fetched))
  end.
Proof.
  cbn [scanContainers]. cbv zeta. rewrite bind_run. unfold GetLogs.
  destruct (podLogs _ _ _ w) as [r w1]. cbn [outcome world events fst snd].
  destruct r as [err|err|content closeErr].
  - rewrite bind_run. cbn. unfold prepend. cbn. reflexivity.
  - rewrite bind_run. cbn. unfold prepend. cbn. reflexivity.
  - rewrite !bind_run. unfold when, copiedEvents.
    destruct (Nat.eqb (String.length content) 0); destruct closeErr;
      destruct (String.eqb content errorMessage); cbn;
      rewrite ?bind_run, ?enqueuePod_run; cbn; unfold prepend; cbn; try reflexivity.
Qed.

Lemma fetchedContainers_app evs1 evs2 :
  fetchedContainers (evs1 ++ evs2) = fetchedContainers evs1 ++ fetchedContainers evs2.
Proof. unfold fetchedContainers. apply omap_app. Qed.

Lemma ScanShape_prepend pod t order matched evs :
  forallb quiet t = true ->
  ScanShape pod order matched evs ->
  ScanShape pod (fetchedContainers t ++ order) matched (t ++ evs).
Proof.
  intros Ht. destruct matched; simpl.
  - intros (pre & c & ce & notes & rest & -> & Hpre & Hnotes & ->).
    exists (t ++ pre), c, ce, notes, rest.
    rewrite forallb_app, Ht, Hpre, fetchedContainers_app, <- !app_assoc. auto.
  - intros [Hq <-]. rewrite forallb_app, Ht, Hq, fetchedContainers_app. auto.
Qed.

Lemma ScanShape_more pod order more evs :
  ScanShape pod order true evs -> ScanShape pod (order ++ more) true evs.
Proof.
  intros (pre & c & ce & notes & rest & -> & Hpre & Hnotes & ->).
  exists pre, c, ce, notes, (rest ++ more). rewrite <- app_assoc. auto.
Qed.

Lemma copiedEvents_quiet ns nm c content closeErr :
  String.eqb content errorMessage = false ->
  forallb quiet (copiedEvents ns nm c content closeErr) = true.
Proof.
  intros Hne. unfold copiedEvents. cbn [forallb]. rewrite forallb_app.
  unfold quiet at 1. cbn [isSignatureCapture isQueueAdd]. rewrite Hne.
  destruct (Nat.eqb _ 0); destruct closeErr; reflexivity.
Qed.

Lemma copiedEvents_fetched ns nm c content closeErr :
  fetchedContainers (copiedEvents ns nm c content closeErr) = [c].
Proof.
  unfold copiedEvents. destruct (Nat.eqb _ 0); destruct closeErr; reflexivity.
Qed.

Lemma scanContainers_shape pod cts w :
  exists matched,
    outcome (scanContainers pod cts w) = Ret matched
    /\ ScanShape pod (map v1.ct_Name cts) matched (events (scanContainers pod cts w)).
Proof.
  revert w. induction cts as [|ct rest IH]; intros w.
  - exists false. cbn. auto.
  - rewrite scanContainers_cons. cbv zeta.
    destruct (podLogs _ _ _ w) as [r w1]. cbn [fst snd].
    destruct (IH w1) as (b & Hout & Hshape).
    destruct r as [err|err|content closeErr].
    + exists b. split; [exact Hout|]. cbn [prepend events snd map].
      refine (ScanShape_prepend pod [EvGetLogs _ _ _ (StreamFailed err); EvKlog _ _]
                _ _ _ eq_refl Hshape).
    + exists b. split; [exact Hout|]. cbn [prepend events snd map].
      refine (ScanShape_prepend pod [EvGetLogs _ _ _ (CopyFailed err); EvKlog _ _]
                _ _ _ eq_refl Hshape).
    + destruct (String.eqb content errorMessage) eqn:Heq.
      * apply String.eqb_eq in Heq. subst content.
        exists true. split; [reflexivity|]. cbn [events snd map].
        exists [], (v1.ct_Name ct), closeErr.
        eexists _, (map v1.ct_Name rest). unfold copiedEvents.
        rewrite <- app_comm_cons. split; [reflexivity|].
        split; [reflexivity|]. split; [|reflexivity].
        destruct closeErr; reflexivity.
      * exists b. split; [exact Hout|]. cbn [prepend events snd map].
        pose proof (ScanShape_prepend pod _ _ _ _
                      (copiedEvents_quiet (metav1.Namespace (v1.pod_meta pod))
                         (metav1.Name (v1.pod_meta pod)) (v1.ct_Name ct) _ closeErr Heq)
                      Hshape) as Hs.
        rewrite copiedEvents_fetched in Hs. exact Hs.
Qed.

Lemma scanStatuses_shape pod css w :
  outcome (scanStatuses pod css w) = Ret tt
  /\ exists matched,
      ScanShape pod (scanOrder pod css) matched (events (scanStatuses pod css w)).
Proof.
  revert w. induction css as [|cs rest IH]; intros w.
  - split; [reflexivity|]. exists false. cbn. auto.
  - cbn [scanStatuses scanOrder flat_map].
    destruct (isCrashLoopStatus cs); [|exact (IH w)].
    rewrite bind_run.
    destruct (scanContainers_shape pod (v1.Containers (v1.Spec pod)) w)
      as (b & Hout & Hshape).
    rewrite Hout. destruct b.
    + cbn. rewrite app_nil_r. split; [reflexivity|]. exists true.
      apply ScanShape_more. exact Hshape.
    + destruct (IH (world (scanContainers pod (v1.Containers (v1.Spec pod)) w)))
        as (Hout' & b' & Hshape').
      split; [exact Hout'|]. exists b'. cbn [prepend events snd].
      destruct Hshape as [Hq Hf]. fold (scanOrder pod rest). rewrite <- Hf.
      apply ScanShape_prepend; assumption.
Qed.


Lemma fetched_in evs ns nm c r :
  In (EvGetLogs ns nm c r) evs -> In c (fetchedContainers evs).
Proof.
  induction evs as [|e evs IH]; [easy|]. intros [->|Hin].
  - left. reflexivity.
  - unfold fetchedContainers. cbn [omap list_omap]. fold (fetchedContainers evs).
    destruct (fetchedContainer e); [right|]; auto.
Qed.

Lemma klog_not_fetched notes :
  forallb isKlog notes = true -> fetchedContainers notes = [].
Proof.
  induction notes as [|e notes IH]; [reflexivity|]. cbn [forallb].
  intros [He Hn]%andb_prop. destruct e; try discriminate. exact (IH Hn).
Qed.

Lemma quiet_not_enqueued pod evs : forallb quiet evs = true -> ~ enqueued pod evs.
Proof.
  intros Hq Hin. unfold enqueued in Hin.
  rewrite forallb_forall in Hq. specialize (Hq _ Hin). discriminate.
Qed.

Lemma quiet_no_capture evs e :
  forallb quiet evs = true -> In e evs -> isSignatureCapture e = false.
Proof.
  intros Hq Hin. rewrite forallb_forall in Hq. specialize (Hq _ Hin).
  unfold quiet in Hq. apply andb_prop in Hq as [Hq _].
  now apply negb_true_iff in Hq.
Qed.

Lemma klog_no_capture notes e :
  forallb isKlog notes = true -> In e notes -> isSignatureCapture e = false.
Proof.
  intros Hk Hin. rewrite forallb_forall in Hk. specialize (Hk _ Hin).
  destruct e; try discriminate. reflexivity.
Qed.

Lemma ScanShape_enqueued pod order matched evs :
  ScanShape pod order matched evs -> (enqueued pod evs <-> matched = true).
Proof.
  destruct matched; cbn.
  - intros (pre & c & ce & notes & rest & -> & _). split; [reflexivity|]. intros _.
    unfold enqueued. rewrite in_app_iff. right. right. rewrite in_app_iff. right. now left.
  - intros [Hq _]. split; [|discriminate]. intros Hin.
    now apply quiet_not_enqueued in Hin.
Qed.

Lemma ScanShape_capture pod order matched evs :
  ScanShape pod order matched evs ->
  ((exists c closeErr,
       In (EvGetLogs (metav1.Namespace (v1.pod_meta pod)) (metav1.Name (v1.pod_meta pod))
                     c (Copied errorMessage closeErr)) evs)
   <-> matched = true).
Proof.
  destruct matched; cbn.
  - intros (pre & c & ce & notes & rest & -> & _). split; [reflexivity|]. intros _.
    exists c, ce. rewrite in_app_iff. right. now left.
  - intros [Hq _]. split; [|discriminate]. intros (c & ce & Hin).
    apply (quiet_no_capture _ _ Hq) in Hin. cbn in Hin.
    now rewrite String.eqb_refl in Hin.
Qed.

Lemma ScanShape_prefix pod order matched evs :
  ScanShape pod order matched evs ->
  exists rest, order = fetchedContainers evs ++ rest /\ (matched = false -> rest = []).
Proof.
  destruct matched; cbn.
  - intros (pre & c & ce & notes & rest & -> & _ & Hnotes & ->).
    exists rest. split; [|discriminate].
    rewrite fetchedContainers_app. change (EvGetLogs ?a ?b c ?r :: ?l) with ([EvGetLogs a b c r] ++ l).
    rewrite !fetchedContainers_app, (klog_not_fetched _ Hnotes). cbn.
    now rewrite <- app_assoc.
  - intros [_ <-]. exists []. now rewrite app_nil_r.
Qed.

(** Where a list has a single element satisfying [P], any split at such
    an element is the same split. *)
Lemma split_at_unique {A} (P : A -> bool) (pre tail pre' post' : list A) (x y : A) :
  pre ++ x :: tail = pre' ++ y :: post' ->
  forallb (fun a => negb (P a)) pre = true ->
  forallb (fun a => negb (P a)) tail = true ->
  P y = true ->
  pre = pre' /\ x = y /\ tail = post'.
Proof.
  revert pre'. induction pre as [|a pre IH]; intros [|a' pre'] Heq Hpre Htail Hy;
    cbn in Heq; injection Heq as -> Heq.
  - auto.
  - rewrite forallb_forall in Htail. specialize (Htail y).
    rewrite Heq, in_app_iff in Htail. rewrite Hy in Htail.
    discriminate Htail. right. now left.
  - cbn in Hpre. rewrite Hy in Hpre. discriminate.
  - cbn in Hpre. apply andb_prop in Hpre as [_ Hpre].
    destruct (IH pre' Heq Hpre Htail Hy) as (-> & -> & ->). auto.
Qed.

Lemma ScanShape_stops pod order matched evs pre e post :
  ScanShape pod order matched evs ->
  evs = pre ++ e :: post ->
  isSignatureCapture e = true ->
  forallb (fun e' => negb (isGetLogs e')) post = true /\ enqueued pod post.
Proof.
  destruct matched; cbn.
  - intros (pre0 & c & ce & notes & rest & -> & Hpre & Hnotes & _) Heq He.
    apply (split_at_unique isSignatureCapture) in Heq as (_ & _ & <-); try assumption.
    + split.
      * rewrite forallb_app. cbn. rewrite andb_true_r.
        rewrite forallb_forall in Hnotes |- *. intros e' Hin.
        specialize (Hnotes _ Hin). now destruct e'.
      * unfold enqueued. rewrite in_app_iff. right. now left.
    + rewrite forallb_forall. intros a Ha.
      now rewrite (quiet_no_capture _ _ Hpre Ha).
    + rewrite forallb_app. cbn. rewrite andb_true_r.
      rewrite forallb_forall. intros a Ha. now rewrite (klog_no_capture _ _ Hnotes Ha).
  - intros [Hq _] -> He. rewrite (quiet_no_capture _ e Hq) in He; [discriminate|].
    rewrite in_app_iff. right. now left.
Qed.

Lemma fetched_in_inv evs c :
  In c (fetchedContainers evs) -> exists ns nm r, In (EvGetLogs ns nm c r) evs.
Proof.
  induction evs as [|e evs IH]; [easy|].
  unfold fetchedContainers. cbn [omap list_omap]. fold (fetchedContainers evs).
  destruct e; cbn [fetchedContainer];
    try (intros Hin; destruct (IH Hin) as (ns & nm & r' & Hin'); exists ns, nm, r'; now right).
  intros [<-|Hin].
  - eexists _, _, _. left. reflexivity.
  - destruct (IH Hin) as (ns & nm & r' & Hin'). exists ns, nm, r'. now right.
Qed.

(** C1 as amended: the pod is enqueued when the log of a crash-looping
    container is byte for byte the signature; it is enqueued only when some
    log the scan captured, of whichever container, equals the signature; and
    when every captured log is other content (empty, truncated, the signature
    with more around it) the pod is not enqueued.  The test is equality of
    the whole text. *)
Theorem C1_classifier_exact_signature pod w :
  let ns := metav1.Namespace (v1.pod_meta pod) in
  let nm := metav1.Name (v1.pod_meta pod) in
  let evs := events (handleObject pod w) in
  (forall cs ct,
      In cs (v1.ContainerStatuses (v1.Status pod)) -> isCrashLoopStatus cs = true ->
      In ct (v1.Containers (v1.Spec pod)) -> v1.ct_Name ct = v1.cs_Name cs ->
      (forall ns' nm' r,
          In (EvGetLogs ns' nm' (v1.ct_Name ct) r) evs ->
          exists closeErr, r = Copied errorMessage closeErr) ->
      enqueued pod evs)
  /\ (enqueued pod evs <->
      exists c closeErr, In (EvGetLogs ns nm c (Copied errorMessage closeErr)) evs)
  /\ ((forall c content closeErr,
          In (EvGetLogs ns nm c (Copied content closeErr)) evs -> content <> errorMessage) ->
      ~ enqueued pod evs).
Proof.
  intros ns nm evs. subst evs. unfold handleObject.
  destruct (scanStatuses_shape pod (v1.ContainerStatuses (v1.Status pod)) w)
    as (_ & b & Hshape).
  pose proof (ScanShape_enqueued _ _ _ _ Hshape) as Henq.
  pose proof (ScanShape_capture _ _ _ _ Hshape) as Hcap.
  split; [|split].
  - intros cs ct Hcs Hcrash Hct _ Hlog. apply Henq.
    destruct b; [reflexivity|]. exfalso.
    destruct Hshape as [Hquiet Hfetched].
    assert (In (v1.ct_Name ct) (scanOrder pod (v1.ContainerStatuses (v1.Status pod))))
      as Hc.
    { apply in_flat_map. exists cs. split; [exact Hcs|]. rewrite Hcrash.
      now apply in_map. }
    rewrite <- Hfetched in Hc. apply fetched_in_inv in Hc as (ns' & nm' & r & Hin).
    destruct (Hlog _ _ _ Hin) as [ce ->].
    apply (quiet_no_capture _ _ Hquiet) in Hin. cbn in Hin.
    now rewrite String.eqb_refl in Hin.
  - rewrite Henq, <- Hcap. reflexivity.
  - intros Hother Hin. apply Henq, Hcap in Hin as (c & ce & Hin).
    exact (Hother _ _ _ Hin eq_refl).
Qed.

(** C3 as amended: log streams are fetched only when some container status
    is waiting with reason CrashLoopBackOff, and then of the containers of
    the pod's spec, in order, once per such status, whatever the state of the
    container fetched; the scan stops at the first log equal to the
    signature: after it no log is fetched and the pod is enqueued. *)
Theorem C3_scan_gated_by_any_crash_loop pod w :
  let evs := events (handleObject pod w) in
  (forall ns nm c r,
      In (EvGetLogs ns nm c r) evs ->
      (exists cs, In cs (v1.ContainerStatuses (v1.Status pod))
                  /\ isCrashLoopStatus cs = true)
      /\ (exists ct, In ct (v1.Containers (v1.Spec pod)) /\ v1.ct_Name ct = c))
  /\ (exists rest,
        scanOrder pod (v1.ContainerStatuses (v1.Status pod))
        = fetchedContainers evs ++ rest
        /\ (~ enqueued pod evs -> rest = []))
  /\ (forall pre e post,
        evs = pre ++ e :: post -> isSignatureCapture e = true ->
        forallb (fun e' => negb (isGetLogs e')) post = true /\ enqueued pod post).
Proof.
  intros evs. subst evs. unfold handleObject.
  destruct (scanStatuses_shape pod (v1.ContainerStatuses (v1.Status pod)) w)
    as (_ & b & Hshape).
  destruct (ScanShape_prefix _ _ _ _ Hshape) as (rest & Horder & Hrest).
  split; [|split].
  - intros ns nm c r Hin. apply fetched_in in Hin.
    assert (In c (scanOrder pod (v1.ContainerStatuses (v1.Status pod)))) as Hc
        by (rewrite Horder, in_app_iff; now left).
    unfold scanOrder in Hc. apply in_flat_map in Hc as (cs & Hcs & Hc).
    destruct (isCrashLoopStatus cs) eqn:Hcrash; [|easy].
    apply in_map_iff in Hc as (ct & Hname & Hct). split; eauto.
  - exists rest. split; [exact Horder|]. intros Hne. apply Hrest.
    destruct b; [|reflexivity]. exfalso. apply Hne.
    now apply (ScanShape_enqueued _ _ _ _ Hshape).
  - intros pre e post Heq He. exact (ScanShape_stops _ _ _ _ _ _ _ Hshape Heq He).
Qed.

(** C8: when the log of a container cannot be streamed or read, the scan
    notes the failure and goes on with the next container, as if the
    container were not there; [handleObject] itself always returns. *)
Theorem C8_log_failure_skips_container pod ct rest w err
  (Hfail : let fetched := podLogs (metav1.Namespace (v1.pod_meta pod))
                                  (metav1.Name (v1.pod_meta pod)) (v1.ct_Name ct) w in
           fst fetched = StreamFailed err \/ fst fetched = CopyFailed err) :
  let ns := metav1.Namespace (v1.pod_meta pod) in
  let nm := metav1.Name (v1.pod_meta pod) in
  let fetched := podLogs ns nm (v1.ct_Name ct) w in
  (exists msg,
      scanContainers pod (ct :: rest) w
      = prepend [EvGetLogs ns nm (v1.ct_Name ct) (fst fetched); EvKlog SevError msg]
                (scanContainers pod rest (snd fetched)))
  /\ (exists matched, outcome (scanContainers pod (ct :: rest) w) = Ret matched)
  /\ (forall pod' w', outcome (handleObject pod' w') = Ret tt).
Proof.
  cbv zeta in *. split; [|split].
  - rewrite scanContainers_cons. cbv zeta.
    destruct Hfail as [-> | ->]; eexists; reflexivity.
  - destruct (scanContainers_shape pod (ct :: rest) w) as (b & Hout & _). eauto.
  - intros pod' w'. apply scanStatuses_shape.
Qed.

(** C9: an update whose old and new ResourceVersion are equal is dropped
    with no call at all; any other update is handled as [handleObject] handles
    the new pod, which enqueues it exactly when a captured log equals the
    signature. *)
Theorem C9_update_compares_resource_version (old new : v1.Pod) w :
  (metav1.ResourceVersion (v1.pod_meta new) = metav1.ResourceVersion (v1.pod_meta old) ->
   UpdateFunc old new w = (Ret tt, w, []))
  /\ (metav1.ResourceVersion (v1.pod_meta new) <> metav1.ResourceVersion (v1.pod_meta old) ->
      UpdateFunc old new w = handleObject new w
      /\ (enqueued new (events (UpdateFunc old new w)) <->
          exists c closeErr,
            In (EvGetLogs (metav1.Namespace (v1.pod_meta new)) (metav1.Name (v1.pod_meta new))
                          c (Copied errorMessage closeErr))
               (events (UpdateFunc old new w)))).
Proof.
  unfold UpdateFunc. split.
  - intros ->. now rewrite String.eqb_refl.
  - intros Hne. apply String.eqb_neq in Hne. rewrite Hne. split; [reflexivity|].
    unfold handleObject.
    destruct (scanStatuses_shape new (v1.ContainerStatuses (v1.Status new)) w)
      as (_ & b & Hshape).
    rewrite (ScanShape_enqueued _ _ _ _ Hshape), <- (ScanShape_capture _ _ _ _ Hshape).
    reflexivity.
Qed.

End handleObject_facts.


Section owner_walk_facts.

Context {W : Type} `{!Clientset W} `{!PodLister W} `{!Workqueue W} `{!PluralNamer}.

Implicit Types (w : W) (obj : metav1.ObjectMeta) (evs : list Event).

Lemma getOriginControllerObject_step fuel obj k w :
  getOriginControllerObject (S fuel) (RObject obj) k w =
  match metav1.GetControllerOf obj with
  | None =>
      (Ret (inr {| kind := k; name := metav1.Name obj; namespace := metav1.Namespace obj |}),
       w, [])
  | Some ref =>
      let resource := lowercaseAndPluralise (metav1.ref_Kind ref) in
      let got := restGet resource (metav1.Namespace obj) (metav1.ref_Name ref) w in
      match fst got with
      | inl err =>
          (Ret (inl err), snd got,
           [EvRestGet resource (metav1.Namespace obj) (metav1.ref_Name ref) (inl err)])
      | inr res =>
          prepend [EvRestGet resource (metav1.Namespace obj) (metav1.ref_Name ref) (inr res)]
                  (getOriginControllerObject fuel res (metav1.ref_Kind ref) (snd got))
      end
  end.
Proof.
  cbn [getOriginControllerObject].
  destruct (metav1.GetControllerOf obj) as [ref|]; [|reflexivity].
  cbv zeta. rewrite bind_run. unfold RESTGet.
  destruct (restGet _ _ _ w) as [[err|res] w1]; reflexivity.
Qed.

Lemma getOriginControllerObject_events fuel res k w :
  forallb isRestGet (events (getOriginControllerObject fuel res k w)) = true.
Proof.
  revert res k w. induction fuel as [|fuel IH]; intros res k w; [reflexivity|].
  destruct res as [obj|]; [|reflexivity].
  rewrite getOriginControllerObject_step.
  destruct (metav1.GetControllerOf obj) as [ref|]; [|reflexivity].
  cbv zeta. destruct (restGet _ _ _ w) as [[err|res] w1]; [reflexivity|].
  cbn [fst snd prepend events]. cbn [app forallb isRestGet]. apply IH.
Qed.

(** A fetch that fails is the last event of the walk, and its error is the
    walk's result. *)
Lemma getOriginControllerObject_failure fuel res0 k w pre resource ns nm err post :
  events (getOriginControllerObject fuel res0 k w)
  = pre ++ EvRestGet resource ns nm (inl err) :: post ->
  post = [] /\ outcome (getOriginControllerObject fuel res0 k w) = Ret (inl err).
Proof.
  revert res0 k w pre. induction fuel as [|fuel IH]; intros res0 k w pre.
  - intros Heq. now destruct pre.
  - destruct res0 as [obj|]; [|intros Heq; now destruct pre].
    rewrite getOriginControllerObject_step.
    destruct (metav1.GetControllerOf obj) as [ref|]; [|intros Heq; now destruct pre].
    cbv zeta. destruct (restGet _ _ _ w) as [[err0|res] w1]; cbn [fst snd].
    + cbn [events snd]. intros Heq. destruct pre as [|e [|e' pre]]; try discriminate.
      injection Heq as _ _ _ -> <-. auto.
    + cbn [prepend events outcome fst snd app]. intros Heq.
      destruct pre as [|e pre]; [discriminate|]. injection Heq as _ Heq.
      exact (IH _ _ _ _ Heq).
Qed.

(** Enough fuel: a walk that ends within [n] fetches returns (or panics)
    with any fuel above [n]. *)
Lemma getOriginControllerObject_enough_fuel w res n :
  WalkEnds w res n ->
  forall fuel k, n < fuel ->
  outcome (getOriginControllerObject fuel res k w) <> OutOfFuel.
Proof.
  induction 1 as [w n|w obj n Htop|w obj ref n Href Hnext IH]; intros fuel k Hlt;
    (destruct fuel as [|fuel]; [lia|]).
  - discriminate.
  - rewrite getOriginControllerObject_step, Htop. discriminate.
  - rewrite getOriginControllerObject_step, Href. cbv zeta.
    destruct (restGet _ _ _ w) as [[err|res] w1] eqn:Hget; [discriminate|].
    cbn [fst snd prepend outcome]. apply (IH _ _ eq_refl). lia.
Qed.

(** Fuel is only a bound: a walk that returns or panics does the same, with
    the same trace, under any larger fuel. *)
Lemma getOriginControllerObject_more_fuel fuel fuel' res k w :
  outcome (getOriginControllerObject fuel res k w) <> OutOfFuel ->
  fuel <= fuel' ->
  getOriginControllerObject fuel' res k w = getOriginControllerObject fuel res k w.
Proof.
  revert fuel' res k w. induction fuel as [|fuel IH]; intros fuel' res k w Hout Hle.
  - now contradiction Hout.
  - destruct fuel' as [|fuel']; [lia|]. destruct res as [obj|]; [|reflexivity].
    rewrite !getOriginControllerObject_step in *.
    destruct (metav1.GetControllerOf obj) as [ref|]; [|reflexivity].
    cbv zeta in *. destruct (restGet _ _ _ w) as [[err|res] w1]; [reflexivity|].
    cbn [fst snd prepend outcome] in *. rewrite (IH fuel' res _ w1 Hout); [reflexivity|lia].
Qed.

(** C2: along an owner chain of depth [n] that ends in an object without
    controller reference, the walk (given fuel above [n]) makes exactly [n]
    fetches and nothing else, and returns the name and namespace of that
    object with the kind under which the chain reached it. *)
Theorem C2_resolve_returns_chain_top w obj k n w' top topKind fuel
  (Hchain : OwnerChain w obj k n w' top topKind) (Hfuel : n < fuel) :
  let run := getOriginControllerObject fuel (RObject obj) k w in
  outcome run = Ret (inr {| kind := topKind;
                            name := metav1.Name top;
                            namespace := metav1.Namespace top |})
  /\ world run = w'
  /\ length (events run) = n
  /\ count isRestGet (events run) = n.
Proof.
  cbv zeta. revert fuel Hfuel.
  induction Hchain as [w obj k Htop|w obj k ref w1 owner n w' top topKind Href Hget _ IH];
    intros fuel Hfuel; (destruct fuel as [|fuel]; [lia|]);
    rewrite getOriginControllerObject_step.
  - rewrite Htop. auto.
  - rewrite Href. cbv zeta. rewrite Hget. cbn [fst snd prepend outcome world events].
    destruct (IH fuel ltac:(lia)) as (Hout & Hw & Hlen & Hcount).
    repeat split; try assumption.
    + cbn. now rewrite Hlen.
    + unfold count in *. cbn. now rewrite Hcount.
Qed.

(** Along an owner chain the walk returns the top, having made the
    fetches of the chain and nothing else. *)
Lemma walk_along_chain w obj k n w' top topKind fuel :
  OwnerChain w obj k n w' top topKind -> n < fuel ->
  exists fetches,
    getOriginControllerObject fuel (RObject obj) k w
    = (Ret (inr {| kind := topKind; name := metav1.Name top;
                   namespace := metav1.Namespace top |}), w', fetches)
    /\ length fetches = n
    /\ forallb isAnsweredRead fetches = true
    /\ forallb isRestGet fetches = true.
Proof.
  intros Hchain. revert fuel.
  induction Hchain as [w obj k Htop|w obj k ref w1 owner n w' top topKind Href Hget _ IH];
    intros fuel Hfuel; (destruct fuel as [|fuel]; [lia|]);
    rewrite getOriginControllerObject_step.
  - rewrite Htop. exists []. auto.
  - rewrite Href. cbv zeta. rewrite Hget. cbn [fst snd].
    destruct (IH fuel ltac:(lia)) as (fetches & -> & Hlen & Hans & Hget').
    eexists (_ :: fetches). cbn [prepend outcome world events fst snd app].
    split; [reflexivity|]. cbn. rewrite Hlen, Hans, Hget'. auto.
Qed.

End owner_walk_facts.

Section reconciler_facts.

Context {W : Type} `{!Clientset W} `{!PodLister W} `{!Workqueue W} `{!PluralNamer}.

Implicit Types (w : W) (evs : list Event) (key : string).

Lemma patchToControllerObject_run cobj body w :
  patchToControllerObject cobj body w =
  let patched := restPatch (namespace cobj) (lowercaseAndPluralise (kind cobj))
                           (name cobj) body w in
  (Ret (fst patched), snd patched,
   [EvRestPatch (namespace cobj) (lowercaseAndPluralise (kind cobj)) (name cobj) body
                (fst patched)]).
Proof.
  unfold patchToControllerObject. rewrite bind_run. unfold RESTPatch. cbv zeta.
  destruct (restPatch _ _ _ _ w) as [[err|] w1]; reflexivity.
Qed.

Lemma reSchedulePod_run fuel key w :
  reSchedulePod fuel key w =
  match cache.SplitMetaNamespaceKey key with
  | inl _ =>
      (Ret None, w, [EvHandleError (fmt.Sprintf "Invalid resource key: %s" [key])])
  | inr (ns, nm) =>
      let got := listerGet ns nm w in
      match fst got with
      | inl err =>
          if IsNotFound err
          then (Ret None, snd got,
                [EvListerGet ns nm (inl err);
                 EvHandleError (fmt.Sprintf "'%s' pod no longer exists" [key])])
          else (Ret (Some err), snd got, [EvListerGet ns nm (inl err)])
      | inr pod =>
          prepend [EvListerGet ns nm (inr pod)] (reconcilePod fuel pod (snd got))
      end
  end.
Proof.
  unfold reSchedulePod.
  destruct (cache.SplitMetaNamespaceKey key) as [err|[ns nm]]; [reflexivity|].
  rewrite bind_run. unfold PodsGet. cbv zeta.
  destruct (listerGet ns nm w) as [[err|pod] w1]; cbn [outcome world events fst snd].
  - destruct (IsNotFound err); reflexivity.
  - apply (f_equal (prepend _)). unfold reconcilePod. cbv zeta. rewrite bind_run.
    destruct (getOriginControllerObject fuel _ _ w1) as [[[[err|cobj]|msg|] w2] t2];
      cbn [outcome world events fst snd]; try reflexivity.
    { unfold prepend, ret. cbn. now rewrite app_nil_r. }
    apply (f_equal (prepend _)). unfold patchOwner. cbv zeta. rewrite bind_run. unfold NodesGet.
    destruct (nodeGet _ w2) as [[err|node] w3]; cbn [outcome world events fst snd];
      [reflexivity|].
    rewrite bind_run, patchToControllerObject_run. cbv zeta.
    destruct (restPatch _ _ _ _ w3) as [[err|] w4]; reflexivity.
Qed.

Lemma processItem_run fuel obj w :
  processItem fuel obj w =
  match obj with
  | ItemOther goSyntax =>
      (Ret None, wqDone obj (wqForget obj w),
       [EvQueueForget obj;
        EvHandleError (fmt.Sprintf "Expected the enqueued item is string but got %#v"
                                   [goSyntax]);
        EvQueueDone obj])
  | ItemString key =>
      let run := reSchedulePod fuel key w in
      match outcome run with
      | Ret (Some err) =>
          (Ret (Some {| Error := fmt.Sprintf
                          "Failed to patch to reschedule '%s' pod : %s, requeuing"
                          [key; Error err];
                        IsNotFound := false |}),
           wqDone obj (wqAddRateLimited obj (world run)),
           events run ++ [EvQueueAddRateLimited obj; EvQueueDone obj])
      | Ret None =>
          (Ret None, wqDone obj (wqForget obj (world run)),
           events run
           ++ [EvQueueForget obj;
               EvKlog SevInfo (fmt.Sprintf "Successfully patch to reschedule '%s'" [key]);
               EvQueueDone obj])
      | Panic msg => (Panic msg, wqDone obj (world run), events run ++ [EvQueueDone obj])
      | OutOfFuel => (OutOfFuel, world run, events run)
      end
  end.
Proof.
  unfold processItem, defer. destruct obj as [key|goSyntax]; [|reflexivity].
  rewrite bind_run. cbv zeta.
  destruct (reSchedulePod fuel key w) as [[[[err|]|msg|] w1] t1];
    cbn [outcome world events fst snd]; cbn; rewrite <- ?app_assoc; reflexivity.
Qed.

Lemma processEnqueuedItem_run fuel w :
  processEnqueuedItem fuel w =
  let got := wqGet w in
  let obj := fst (fst got) in
  prepend [EvQueueGet obj (snd (fst got))]
    (if snd (fst got) then (Ret false, snd got, [])
     else
       let run := processItem fuel obj (snd got) in
       match outcome run with
       | Ret (Some err) =>
           (Ret true, world run, events run ++ [EvHandleError (fmt.Sprintf "%s" [Error err])])
       | Ret None => (Ret true, world run, events run)
       | Panic msg => (Panic msg, world run, events run)
       | OutOfFuel => (OutOfFuel, world run, events run)
       end).
Proof.
  unfold processEnqueuedItem. rewrite bind_run. unfold workqueue_Get. cbv zeta.
  destruct (wqGet w) as [[obj shutdown] w0]. cbn [outcome world events fst snd].
  apply (f_equal (prepend _)). destruct shutdown; [reflexivity|].
  cbv beta iota. rewrite bind_run.
  destruct (processItem fuel obj w0) as [[[[err|]|msg|] w1] t1];
    cbn [outcome world events fst snd]; try reflexivity;
    unfold prepend, ret, bind, HandleError; cbn; rewrite ?app_nil_r; reflexivity.
Qed.

Lemma workerLoop_step rounds fuel w :
  workerLoop (S rounds) fuel w =
  let run := processEnqueuedItem fuel w in
  match outcome run with
  | Ret true => prepend (events run) (workerLoop rounds fuel (world run))
  | Ret false => (Ret tt, world run, events run)
  | Panic msg => (Panic msg, world run, events run)
  | OutOfFuel => (OutOfFuel, world run, events run)
  end.
Proof.
  cbn [workerLoop]. rewrite bind_run. cbv zeta.
  destruct (processEnqueuedItem fuel w) as [[[[|]|msg|] w1] t1];
    cbn [outcome world events fst snd]; try reflexivity.
  unfold prepend, ret. cbn. now rewrite app_nil_r.
Qed.

(** *** What the traces of the reconciler contain *)

Lemma walk_failure_outcome fuel res k w :
  existsb isFailure (events (getOriginControllerObject fuel res k w)) = true ->
  exists err, outcome (getOriginControllerObject fuel res k w) = Ret (inl err).
Proof.
  intros Hex. apply existsb_exists in Hex as (e & Hin & He).
  apply in_split in Hin as (pre & post & Heq).
  pose proof (getOriginControllerObject_events fuel res k w) as Hall.
  rewrite Heq, forallb_app in Hall. apply andb_prop in Hall as [_ Hall].
  cbn [forallb] in Hall. apply andb_prop in Hall as [Hrest _].
  destruct e as [| |resource ns nm [err|r]| | | | | | | | |]; try discriminate.
  exists err. exact (proj2 (getOriginControllerObject_failure _ _ _ _ _ _ _ _ _ _ Heq)).
Qed.

Lemma walk_events_plain fuel res k w :
  let evs := events (getOriginControllerObject fuel res k w) in
  forallb (fun e => negb (isQueueCall e)) evs = true
  /\ existsb isPatched evs = false
  /\ existsb isNodeOrPatch evs = false.
Proof.
  cbv zeta. pose proof (getOriginControllerObject_events fuel res k w) as Hall.
  induction (events (getOriginControllerObject fuel res k w)) as [|e evs IH];
    [auto|].
  cbn [forallb] in Hall. apply andb_prop in Hall as [He Hall].
  destruct (IH Hall) as (H1 & H2 & H3).
  destruct e; try discriminate. cbn. auto.
Qed.

Lemma patchOwner_facts pod cobj w :
  let run := patchOwner pod cobj w in
  forallb (fun e => negb (isQueueCall e)) (events run) = true
  /\ (exists r, outcome run = Ret r
                /\ (existsb isFailure (events run) = true <-> r <> None)
                /\ (existsb isPatched (events run) = true <-> r = None)).
Proof.
  unfold patchOwner. cbv zeta.
  destruct (nodeGet _ w) as [[err|node] w1]; cbn [fst snd].
  - split; [reflexivity|]. exists (Some err). cbn. intuition congruence.
  - destruct (restPatch _ _ _ _ w1) as [[err|] w2]; cbn [fst snd];
      (split; [reflexivity|]); eexists; (split; [reflexivity|]); cbn;
      intuition congruence.
Qed.

Lemma reconcilePod_facts fuel pod w :
  let run := reconcilePod fuel pod w in
  forallb (fun e => negb (isQueueCall e)) (events run) = true
  /\ (existsb isFailure (events run) = true -> exists err, outcome run = Ret (Some err))
  /\ (existsb isPatched (events run) = true -> outcome run = Ret None).
Proof.
  unfold reconcilePod. cbv zeta.
  pose proof (walk_failure_outcome fuel (RObject (v1.pod_meta pod)) (v1.Kind pod) w) as Hfail.
  destruct (walk_events_plain fuel (RObject (v1.pod_meta pod)) (v1.Kind pod) w)
    as (Hplain & Hnopatch & _).
  destruct (outcome (getOriginControllerObject fuel _ _ w)) as [[err|cobj]|msg|] eqn:Hout.
  - cbn [events outcome fst snd]. split; [exact Hplain|]. split; [eauto|].
    rewrite Hnopatch. discriminate.
  - destruct (patchOwner_facts pod cobj
                (world (getOriginControllerObject fuel (RObject (v1.pod_meta pod))
                          (v1.Kind pod) w)))
      as (Hq & r & Hr & Hf & Hp).
    cbn [prepend events outcome fst snd]. rewrite forallb_app, !existsb_app, Hplain, Hq, Hr.
    rewrite Hnopatch. split; [reflexivity|]. split.
    + intros [Hw|Hp']%orb_prop.
      * destruct (Hfail Hw) as [err Herr]. discriminate.
      * apply Hf in Hp'. destruct r; [eauto|congruence].
    + cbn [orb]. intros Hp'. apply Hp in Hp'. now subst r.
  - cbn [events outcome fst snd]. split; [exact Hplain|]. split.
    + intros Hw. destruct (Hfail Hw) as [err Herr]. discriminate.
    + rewrite Hnopatch. discriminate.
  - cbn [events outcome fst snd]. split; [exact Hplain|]. split.
    + intros Hw. destruct (Hfail Hw) as [err Herr]. discriminate.
    + rewrite Hnopatch. discriminate.
Qed.

Lemma reSchedulePod_facts fuel key w :
  let run := reSchedulePod fuel key w in
  forallb (fun e => negb (isQueueCall e)) (events run) = true
  /\ (existsb isFailure (events run) = true -> exists err, outcome run = Ret (Some err))
  /\ (existsb isPatched (events run) = true -> outcome run = Ret None).
Proof.
  cbv zeta. rewrite reSchedulePod_run.
  destruct (cache.SplitMetaNamespaceKey key) as [err|[ns nm]].
  - cbn. intuition discriminate.
  - cbv zeta. destruct (listerGet ns nm w) as [[err|pod] w1]; cbn [fst snd].
    + destruct (IsNotFound err); cbn; intuition discriminate.
    + destruct (reconcilePod_facts fuel pod w1) as (Hq & Hf & Hp).
      cbn [prepend events outcome fst snd app forallb existsb isQueueCall isFailure
             isPatched negb andb orb].
      auto.
Qed.

End reconciler_facts.

Section reconciler_theorems.

Context {W : Type} `{!Clientset W} `{!PodLister W} `{!Workqueue W} `{!PluralNamer}.

Implicit Types (w : W) (evs : list Event) (key : string).

Lemma filter_plain (p : Event -> bool) evs :
  forallb (fun e => negb (isQueueCall e)) evs = true ->
  (forall e, p e = true -> isQueueCall e = true) ->
  List.filter p evs = [].
Proof.
  intros Hplain Hp. induction evs as [|e evs IH]; [reflexivity|].
  cbn [forallb] in Hplain. apply andb_prop in Hplain as [He Hplain].
  cbn [List.filter]. destruct (p e) eqn:Hpe; [|exact (IH Hplain)].
  rewrite (Hp _ Hpe) in He. discriminate.
Qed.

Lemma isDone_queue e : isDone e = true -> isQueueCall e = true.
Proof. now destruct e. Qed.

Lemma isVerdict_queue e : isVerdict e = true -> isQueueCall e = true.
Proof. now destruct e. Qed.

(** The queue calls of [processItem] on a key, by the outcome of
    [reSchedulePod]. *)
Lemma processItem_verdict fuel key w :
  let inner := reSchedulePod fuel key w in
  let run := processItem fuel (ItemString key) w in
  match outcome inner with
  | Ret (Some err) =>
      (exists err', outcome run = Ret (Some err'))
      /\ List.filter isVerdict (events run) = [EvQueueAddRateLimited (ItemString key)]
      /\ List.filter isDone (events run) = [EvQueueDone (ItemString key)]
  | Ret None =>
      outcome run = Ret None
      /\ List.filter isVerdict (events run) = [EvQueueForget (ItemString key)]
      /\ List.filter isDone (events run) = [EvQueueDone (ItemString key)]
  | Panic msg =>
      outcome run = Panic msg
      /\ List.filter isVerdict (events run) = []
      /\ List.filter isDone (events run) = [EvQueueDone (ItemString key)]
  | OutOfFuel => outcome run = OutOfFuel
  end.
Proof.
  cbv zeta. rewrite processItem_run. cbv zeta.
  destruct (reSchedulePod_facts fuel key w) as (Hplain & _ & _).
  pose proof (filter_plain isVerdict _ Hplain isVerdict_queue) as Hv.
  pose proof (filter_plain isDone _ Hplain isDone_queue) as Hd.
  destruct (outcome (reSchedulePod fuel key w)) as [[err|]|msg|];
    cbn [outcome events fst snd]; rewrite ?List.filter_app, ?Hv, ?Hd; cbn; eauto.
Qed.

(** The run of [processEnqueuedItem] on a key, by the outcome of
    [reSchedulePod]. *)
Lemma processEnqueuedItem_verdict fuel key w w0 :
  wqGet w = ((ItemString key, false), w0) ->
  let inner := reSchedulePod fuel key w0 in
  let run := processEnqueuedItem fuel w in
  (exists tail,
      events run = EvQueueGet (ItemString key) false :: events inner ++ tail
      /\ existsb isFailure tail = false /\ existsb isPatched tail = false
      /\ existsb isNodeOrPatch tail = false)
  /\ match outcome inner with
     | Ret (Some err) =>
         outcome run = Ret true
         /\ List.filter isVerdict (events run) = [EvQueueAddRateLimited (ItemString key)]
         /\ List.filter isDone (events run) = [EvQueueDone (ItemString key)]
     | Ret None =>
         outcome run = Ret true
         /\ List.filter isVerdict (events run) = [EvQueueForget (ItemString key)]
         /\ List.filter isDone (events run) = [EvQueueDone (ItemString key)]
     | Panic msg =>
         outcome run = Panic msg
         /\ List.filter isVerdict (events run) = []
         /\ List.filter isDone (events run) = [EvQueueDone (ItemString key)]
     | OutOfFuel => outcome run = OutOfFuel
     end.
Proof.
  intros Hget. cbv zeta. rewrite processEnqueuedItem_run, Hget. cbv zeta.
  cbn [fst snd]. rewrite processItem_run. cbv zeta.
  destruct (reSchedulePod_facts fuel key w0) as (Hplain & _ & _).
  pose proof (filter_plain isVerdict _ Hplain isVerdict_queue) as Hv.
  pose proof (filter_plain isDone _ Hplain isDone_queue) as Hd.
  destruct (outcome (reSchedulePod fuel key w0)) as [[err|]|msg|];
    cbn [prepend outcome world events fst snd app]; rewrite <- ?app_assoc;
    (split; [first [ eexists; split; [reflexivity|]; cbn; solve [auto]
                   | exists []; rewrite app_nil_r; solve [auto] ]|]);
    cbn [List.filter isVerdict isDone]; rewrite ?List.filter_app, ?Hv, ?Hd; cbn; auto.
Qed.

Lemma existsb_tail (p : Event -> bool) e evs tail :
  p e = false -> existsb p tail = false ->
  existsb p (e :: evs ++ tail) = existsb p evs.
Proof.
  intros He Ht. cbn [existsb]. rewrite He, existsb_app, Ht. cbn. apply orb_false_r.
Qed.

(** C4: for a key taken from the queue, a failure of an owner fetch, of
    the node read or of the patch makes the worker call AddRateLimited on the
    key (and not Forget); an applied patch makes it call Forget (and not
    AddRateLimited); either way [processEnqueuedItem] returns true and the
    loop of [Run] goes on to its next round. *)
Theorem C4_failure_requeues_success_forgets fuel key w w0
  (Hget : wqGet w = ((ItemString key, false), w0)) :
  let run := processEnqueuedItem fuel w in
  (existsb isFailure (events run) = true ->
   outcome run = Ret true
   /\ List.filter isVerdict (events run) = [EvQueueAddRateLimited (ItemString key)])
  /\ (existsb isPatched (events run) = true ->
      outcome run = Ret true
      /\ List.filter isVerdict (events run) = [EvQueueForget (ItemString key)])
  /\ (outcome run = Ret true ->
      forall rounds,
        workerLoop (S rounds) fuel w
        = prepend (events run) (workerLoop rounds fuel (world run))).
Proof.
  cbv zeta.
  destruct (processEnqueuedItem_verdict fuel key w w0 Hget)
    as ((tail & Hev & Htf & Htp & _) & Hverdict).
  destruct (reSchedulePod_facts fuel key w0) as (_ & Hfail & Hpatched).
  split; [|split].
  - rewrite Hev, (existsb_tail isFailure (EvQueueGet _ _) _ _ eq_refl Htf). intros Hf.
    destruct (Hfail Hf) as [err Herr]. rewrite Herr in Hverdict. rewrite <- Hev.
    tauto.
  - rewrite Hev, (existsb_tail isPatched (EvQueueGet _ _) _ _ eq_refl Htp). intros Hp.
    rewrite (Hpatched Hp) in Hverdict. rewrite <- Hev. tauto.
  - intros Hout rounds. rewrite workerLoop_step. cbv zeta. now rewrite Hout.
Qed.

(** C5: a key that does not split into namespace and name, and a key whose
    pod the lister no longer finds, are each logged and forgotten: the worker
    calls Forget and Done on the key, never Add or AddRateLimited, and goes
    on. *)
Theorem C5_malformed_or_gone_is_forgotten fuel key w w0
  (Hget : wqGet w = ((ItemString key, false), w0)) :
  let item := ItemString key in
  let forgotten :=
    [EvQueueForget item;
     EvKlog SevInfo (fmt.Sprintf "Successfully patch to reschedule '%s'" [key]);
     EvQueueDone item] in
  (forall err,
      cache.SplitMetaNamespaceKey key = inl err ->
      processEnqueuedItem fuel w
      = (Ret true, wqDone item (wqForget item w0),
         [EvQueueGet item false;
          EvHandleError (fmt.Sprintf "Invalid resource key: %s" [key])]
         ++ forgotten))
  /\ (forall ns nm err w1,
        cache.SplitMetaNamespaceKey key = inr (ns, nm) ->
        listerGet ns nm w0 = (inl err, w1) -> IsNotFound err = true ->
        processEnqueuedItem fuel w
        = (Ret true, wqDone item (wqForget item w1),
           [EvQueueGet item false;
            EvListerGet ns nm (inl err);
            EvHandleError (fmt.Sprintf "'%s' pod no longer exists" [key])]
           ++ forgotten)).
Proof.
  cbv zeta. split.
  - intros err Hsplit.
    rewrite processEnqueuedItem_run, Hget. cbv zeta. cbn [fst snd].
    rewrite processItem_run. cbv zeta. rewrite reSchedulePod_run, Hsplit. reflexivity.
  - intros ns nm err w1 Hsplit Hlist Hgone.
    rewrite processEnqueuedItem_run, Hget. cbv zeta. cbn [fst snd].
    rewrite processItem_run. cbv zeta. rewrite reSchedulePod_run, Hsplit. cbv zeta.
    rewrite Hlist. cbn [fst snd]. rewrite Hgone. reflexivity.
Qed.

Lemma patchOwner_no_fetch pod cobj w resource ns nm r :
  ~ In (EvRestGet resource ns nm r) (events (patchOwner pod cobj w)).
Proof.
  unfold patchOwner. cbv zeta. destruct (fst (nodeGet _ w)); cbn; intuition discriminate.
Qed.

(** A failed owner fetch in the trace of [reSchedulePod] is its last event;
    its error is what [reSchedulePod] returns, and neither the node nor a
    patch is reached. *)
Lemma reSchedulePod_owner_failure fuel key w resource ns nm err :
  In (EvRestGet resource ns nm (inl err)) (events (reSchedulePod fuel key w)) ->
  outcome (reSchedulePod fuel key w) = Ret (Some err)
  /\ existsb isNodeOrPatch (events (reSchedulePod fuel key w)) = false
  /\ exists pre,
      events (reSchedulePod fuel key w) = pre ++ [EvRestGet resource ns nm (inl err)].
Proof.
  rewrite reSchedulePod_run.
  destruct (cache.SplitMetaNamespaceKey key) as [e|[ns' nm']].
  { cbn. intuition discriminate. }
  cbv zeta. destruct (listerGet ns' nm' w) as [[e|pod] w1]; cbn [fst snd].
  { destruct (IsNotFound e); cbn; intuition discriminate. }
  cbn [prepend events outcome fst snd app]. intros [Hin|Hin]; [discriminate|].
  unfold reconcilePod in *. cbv zeta in *.
  destruct (walk_events_plain fuel (RObject (v1.pod_meta pod)) (v1.Kind pod) w1)
    as (_ & _ & Hplain).
  assert (In (EvRestGet resource ns nm (inl err))
             (events (getOriginControllerObject fuel (RObject (v1.pod_meta pod))
                        (v1.Kind pod) w1)) ->
          exists pre,
            events (getOriginControllerObject fuel (RObject (v1.pod_meta pod))
                      (v1.Kind pod) w1) = pre ++ [EvRestGet resource ns nm (inl err)]
            /\ outcome (getOriginControllerObject fuel (RObject (v1.pod_meta pod))
                          (v1.Kind pod) w1) = Ret (inl err)) as Hwalk.
  { intros Hw. apply in_split in Hw as (pre & post & Heq).
    destruct (getOriginControllerObject_failure _ _ _ _ _ _ _ _ _ _ Heq) as [-> Hout].
    eauto. }
  destruct (outcome (getOriginControllerObject fuel _ _ w1)) as [[e|cobj]|msg|] eqn:Hout;
    cbn [prepend events outcome fst snd] in *.
  - destruct (Hwalk Hin) as (pre & Hpre & Herr). injection Herr as ->.
    cbn [app existsb isNodeOrPatch orb]. rewrite Hplain.
    split; [reflexivity|]. split; [reflexivity|].
    exists (EvListerGet ns' nm' (inr pod) :: pre). now rewrite Hpre.
  - apply in_app_iff in Hin as [Hin|Hin].
    + destruct (Hwalk Hin) as (_ & _ & Herr). discriminate.
    + now apply patchOwner_no_fetch in Hin.
  - destruct (Hwalk Hin) as (_ & _ & Herr). discriminate.
  - destruct (Hwalk Hin) as (_ & _ & Herr). discriminate.
Qed.

(** C7: a fetch of an owner that fails ends the owner walk at once, with
    that error and no controller object; [reSchedulePod] returns the error
    without reading the node or patching anything, and the worker leaves the
    retry to the queue: AddRateLimited on the key, then on to the next item. *)
Theorem C7_owner_fetch_failure_aborts fuel key w w0 resource ns nm err
  (Hget : wqGet w = ((ItemString key, false), w0))
  (Hfail : In (EvRestGet resource ns nm (inl err)) (events (processEnqueuedItem fuel w))) :
  (forall fuel' res k w' pre resource' ns' nm' err' post,
      events (getOriginControllerObject fuel' res k w')
      = pre ++ EvRestGet resource' ns' nm' (inl err') :: post ->
      post = [] /\ outcome (getOriginControllerObject fuel' res k w') = Ret (inl err'))
  /\ outcome (reSchedulePod fuel key w0) = Ret (Some err)
  /\ existsb isNodeOrPatch (events (processEnqueuedItem fuel w)) = false
  /\ List.filter isVerdict (events (processEnqueuedItem fuel w))
     = [EvQueueAddRateLimited (ItemString key)]
  /\ outcome (processEnqueuedItem fuel w) = Ret true.
Proof.
  split; [intros *; apply getOriginControllerObject_failure|].
  destruct (processEnqueuedItem_verdict fuel key w w0 Hget)
    as ((tail & Hev & Htf & _ & Htn) & Hverdict).
  assert (In (EvRestGet resource ns nm (inl err)) (events (reSchedulePod fuel key w0)))
    as Hin.
  { rewrite Hev in Hfail. destruct Hfail as [Hf|Hf]; [discriminate|].
    apply in_app_iff in Hf as [Hf|Hf]; [exact Hf|].
    assert (existsb isFailure tail = true) as Ht
        by (apply existsb_exists; eexists; split; [exact Hf|reflexivity]).
    congruence. }
  destruct (reSchedulePod_owner_failure _ _ _ _ _ _ _ Hin) as (Hout & Hplain & _).
  rewrite Hout in Hverdict. split; [exact Hout|].
  split; [|tauto].
  rewrite Hev, (existsb_tail isNodeOrPatch (EvQueueGet _ _) _ _ eq_refl Htn).
  exact Hplain.
Qed.

Lemma reSchedulePod_returns fuel n key w :
  (forall ns nm pod w1,
      cache.SplitMetaNamespaceKey key = inr (ns, nm) ->
      listerGet ns nm w = (inr pod, w1) ->
      WalkEnds w1 (RObject (v1.pod_meta pod)) n) ->
  n < fuel ->
  outcome (reSchedulePod fuel key w) <> OutOfFuel.
Proof.
  intros Hends Hfuel. rewrite reSchedulePod_run.
  destruct (cache.SplitMetaNamespaceKey key) as [e|[ns nm]]; [discriminate|].
  cbv zeta. destruct (listerGet ns nm w) as [[e|pod] w1] eqn:Hlist; cbn [fst snd].
  { destruct (IsNotFound e); discriminate. }
  cbn [prepend outcome fst]. unfold reconcilePod. cbv zeta.
  pose proof (getOriginControllerObject_enough_fuel w1 _ n
                (Hends _ _ _ _ eq_refl Hlist) fuel (v1.Kind pod) Hfuel) as Hwalk.
  destruct (outcome (getOriginControllerObject fuel _ _ w1)) as [[e|cobj]|msg|];
    try discriminate; [|congruence].
  cbn [prepend outcome fst]. unfold patchOwner. cbv zeta.
  destruct (fst (nodeGet _ _)); discriminate.
Qed.

(** C10: for an item the queue hands out while not shutting down,
    [processEnqueuedItem] that returns has called Done exactly once, on that
    item, and exactly one of Forget and AddRateLimited, on that item, and its
    result is true; when its body panics it has called Done exactly once, on
    that item (the deferred call), and neither Forget nor AddRateLimited, and
    the panic goes on; for as long as the owner walk goes on, no Done and no
    verdict has been called.  It returns or panics whenever the owner walk
    of the pod ends. *)
Theorem C10_done_once_one_verdict fuel item w w0
  (Hget : wqGet w = ((item, false), w0)) :
  let run := processEnqueuedItem fuel w in
  match outcome run with
  | Ret continue =>
      continue = true
      /\ List.filter isDone (events run) = [EvQueueDone item]
      /\ (List.filter isVerdict (events run) = [EvQueueForget item]
          \/ List.filter isVerdict (events run) = [EvQueueAddRateLimited item])
  | Panic msg =>
      List.filter isDone (events run) = [EvQueueDone item]
      /\ List.filter isVerdict (events run) = []
  | OutOfFuel =>
      List.filter isDone (events run) = []
      /\ List.filter isVerdict (events run) = []
  end
  /\ (forall n,
        (forall key ns nm pod w1,
            item = ItemString key ->
            cache.SplitMetaNamespaceKey key = inr (ns, nm) ->
            listerGet ns nm w0 = (inr pod, w1) ->
            WalkEnds w1 (RObject (v1.pod_meta pod)) n) ->
        n < fuel ->
        outcome run <> OutOfFuel).
Proof.
  cbv zeta. destruct item as [key|goSyntax].
  - split.
    + rewrite processEnqueuedItem_run, Hget. cbv zeta. cbn [fst snd].
      rewrite processItem_run. cbv zeta.
      destruct (reSchedulePod_facts fuel key w0) as (Hplain & _ & _).
      pose proof (filter_plain isVerdict _ Hplain isVerdict_queue) as Hv.
      pose proof (filter_plain isDone _ Hplain isDone_queue) as Hd.
      destruct (outcome (reSchedulePod fuel key w0)) as [[err|]|msg|];
        cbn [prepend outcome world events fst snd app List.filter isVerdict isDone];
        rewrite ?List.filter_app, ?Hv, ?Hd; cbn; auto.
    + intros n Hends Hfuel.
      destruct (processEnqueuedItem_verdict fuel key w w0 Hget) as (_ & Hverdict).
      pose proof (reSchedulePod_returns fuel n key w0
                    (fun ns nm pod w1 => Hends key ns nm pod w1 eq_refl) Hfuel) as Hret.
      destruct (outcome (reSchedulePod fuel key w0)) as [[e|]|msg|];
        [| | |congruence]; destruct Hverdict as (Hout & _); rewrite Hout; discriminate.
  - rewrite processEnqueuedItem_run, Hget. cbv zeta. cbn [fst snd].
    rewrite processItem_run. cbn. split; [auto|]. intros; discriminate.
Qed.

End reconciler_theorems.

(** ** The patch document *)

Section patch_facts.

Context {W : Type} `{!Clientset W} `{!PodLister W} `{!Workqueue W} `{!PluralNamer}.

Lemma lex_string_plain v rest :
  allChars json.plainChar v = true ->
  json.lex json.InString (v +:+ String text.DQ rest)
  = json.emit (json.TStr v) (json.lex json.Outside rest).
Proof.
  induction v as [|c v IH]; intros Hp.
  - reflexivity.
  - cbn [allChars] in Hp. apply andb_prop in Hp as [Hc Hv].
    unfold json.plainChar in Hc. apply andb_prop in Hc as [Hc H32].
    apply andb_prop in Hc as [Hq Hb]. apply negb_true_iff in Hq, Hb.
    change (String c v +:+ String text.DQ rest) with (String c (v +:+ String text.DQ rest)).
    cbn [json.lex]. rewrite Hq, Hb, H32, (IH Hv).
    now destruct (json.lex json.Outside rest).
Qed.

Lemma Sprintf_patchJSON v :
  fmt.Sprintf patchJSON [v] = beforeVerb patchJSON +:+ (v +:+ afterVerb patchJSON).
Proof. reflexivity. Qed.

#[local] Arguments String.append !s1 s2 : simpl nomatch.

(** A decoder reads the patch built for a value that needs no escaping as
    the affinity document excluding that value. *)
Lemma parse_patch v :
  allChars json.plainChar v = true ->
  json.parse (fmt.Sprintf patchJSON [v])
  = Some (requiredNodeAffinity [{| MatchExpressions := [notOnArchitecture v] |}]).
Proof.
  intros Hp. rewrite Sprintf_patchJSON. unfold json.parse.
  set (pre := beforeVerb patchJSON). vm_compute in pre.
  set (post := afterVerb patchJSON). vm_compute in post. subst pre.
  cbn -[post json.parseValue]. subst post.
  rewrite (lex_string_plain v _ Hp).
  cbn -[json.parseValue]. reflexivity.
Qed.

Lemma isNameChar_plain c : validation.isNameChar c = true -> json.plainChar c = true.
Proof.
  destruct c as [[] [] [] [] [] [] [] []]; vm_compute; intros Hc; first [exact Hc | reflexivity].
Qed.

Lemma allChars_impl (p q : ascii -> bool) s :
  (forall c, p c = true -> q c = true) -> allChars p s = true -> allChars q s = true.
Proof.
  intros Hpq. induction s as [|c s IH]; [reflexivity|]. cbn [allChars].
  intros [Hc Hs]%andb_prop. now rewrite (Hpq _ Hc), (IH Hs).
Qed.

Lemma label_value_plain v :
  validation.IsValidLabelValue v = true -> allChars json.plainChar v = true.
Proof.
  unfold validation.IsValidLabelValue. intros [_ Hv]%andb_prop.
  destruct v as [|c rest]; [reflexivity|].
  apply andb_prop in Hv as [Hv _]. apply andb_prop in Hv as [Hc Hrest].
  cbn [allChars]. rewrite (allChars_impl _ _ _ isNameChar_plain Hrest), andb_true_r.
  apply isNameChar_plain. unfold validation.isNameChar. now rewrite Hc.
Qed.

(** The body of every patch [reSchedulePod] sends is the template filled
    with the architecture label of the node it read, which is the node the
    pod is assigned to. *)
Lemma reSchedulePod_patch_body fuel key w ns resource nm body r :
  In (EvRestPatch ns resource nm body r) (events (reSchedulePod fuel key w)) ->
  exists lns lnm pod node,
    In (EvListerGet lns lnm (inr pod)) (events (reSchedulePod fuel key w))
    /\ In (EvNodeGet (v1.NodeName (v1.Spec pod)) (inr node))
          (events (reSchedulePod fuel key w))
    /\ body = fmt.Sprintf patchJSON
                [metav1.label (metav1.Labels (v1.node_meta node))
                              "beta.kubernetes.io/arch"].
Proof.
  rewrite reSchedulePod_run.
  destruct (cache.SplitMetaNamespaceKey key) as [e|[lns lnm]].
  { cbn. intuition discriminate. }
  cbv zeta. destruct (listerGet lns lnm w) as [[e|pod] w1]; cbn [fst snd].
  { destruct (IsNotFound e); cbn; intuition discriminate. }
  cbn [prepend events fst snd app]. intros [Hin|Hin]; [discriminate|].
  exists lns, lnm, pod. unfold reconcilePod in *. cbv zeta in *.
  destruct (walk_events_plain fuel (RObject (v1.pod_meta pod)) (v1.Kind pod) w1)
    as (_ & Hnopatch & Hplain).
  assert (~ In (EvRestPatch ns resource nm body r)
               (events (getOriginControllerObject fuel (RObject (v1.pod_meta pod))
                          (v1.Kind pod) w1))) as Hwalk.
  { intros Hw. assert (existsb isNodeOrPatch
                         (events (getOriginControllerObject fuel
                                    (RObject (v1.pod_meta pod)) (v1.Kind pod) w1)) = true)
      as Hex by (apply existsb_exists; eexists; split; [exact Hw|reflexivity]).
    congruence. }
  destruct (outcome (getOriginControllerObject fuel _ _ w1)) as [[e|cobj]|msg|];
    cbn [prepend events fst snd] in *; try contradiction.
  apply in_app_iff in Hin as [Hin|Hin]; [contradiction|].
  unfold patchOwner in *. cbv zeta in *.
  destruct (nodeGet _ _) as [[e|node] w3]; cbn [fst snd events] in *.
  { destruct Hin as [Hin|[]]. discriminate. }
  exists node. destruct Hin as [Hin|[Hin|[]]]; [discriminate|].
  injection Hin as _ _ _ <- _.
  split; [now left|]. split; [|reflexivity].
  right. apply in_app_iff. right. now left.
Qed.

(** C6: when the lister has the pod, its owner chain ends and the node the
    pod is assigned to can be read, [reSchedulePod] reads that node and sends
    as its last call a patch whose body is the template filled with the
    value of the node's label beta.kubernetes.io/arch; that body (the label
    value being a valid label value) is read by a decoder as the partial
    update whose pod template has, under its required-during-scheduling node
    affinity, one node selector term with the one expression: key
    beta.kubernetes.io/arch, operator NotIn, values exactly that value.  The
    template filled with any valid label value is read so, and no patch of
    [reSchedulePod] has another body than the template filled with the
    architecture label of the node read under the pod's node name. *)
Theorem C6_patch_excludes_node_architecture
  fuel key (w : W) ns nm pod w1 n w2 top topKind node w3
  (Hsplit : cache.SplitMetaNamespaceKey key = inr (ns, nm))
  (Hlist : listerGet ns nm w = (inr pod, w1))
  (Hchain : OwnerChain w1 (v1.pod_meta pod) (v1.Kind pod) n w2 top topKind)
  (Hfuel : n < fuel)
  (Hnode : nodeGet (v1.NodeName (v1.Spec pod)) w2 = (inr node, w3))
  (Hvalid : validation.IsValidLabelValue
              (metav1.label (metav1.Labels (v1.node_meta node))
                            "beta.kubernetes.io/arch") = true) :
  let arch := metav1.label (metav1.Labels (v1.node_meta node))
                           "beta.kubernetes.io/arch" in
  (exists fetches r,
      forallb isRestGet fetches = true
      /\ events (reSchedulePod fuel key w)
         = EvListerGet ns nm (inr pod)
           :: fetches
           ++ [EvNodeGet (v1.NodeName (v1.Spec pod)) (inr node);
               EvRestPatch (metav1.Namespace top) (lowercaseAndPluralise topKind)
                           (metav1.Name top) (fmt.Sprintf patchJSON [arch]) r])
  /\ json.parse (fmt.Sprintf patchJSON [arch])
     = Some (requiredNodeAffinity [{| MatchExpressions := [notOnArchitecture arch] |}])
  /\ (forall value,
        validation.IsValidLabelValue value = true ->
        json.parse (fmt.Sprintf patchJSON [value])
        = Some (requiredNodeAffinity
                  [{| MatchExpressions := [notOnArchitecture value] |}]))
  /\ (forall fuel' key' (w' : W) pns resource pnm body r,
        In (EvRestPatch pns resource pnm body r) (events (reSchedulePod fuel' key' w')) ->
        exists lns lnm pod' node',
          In (EvListerGet lns lnm (inr pod')) (events (reSchedulePod fuel' key' w'))
          /\ In (EvNodeGet (v1.NodeName (v1.Spec pod')) (inr node'))
                (events (reSchedulePod fuel' key' w'))
          /\ body = fmt.Sprintf patchJSON
                      [metav1.label (metav1.Labels (v1.node_meta node'))
                                    "beta.kubernetes.io/arch"]).
Proof.
  cbv zeta. split; [|split; [|split]].
  - rewrite reSchedulePod_run, Hsplit. cbv zeta. rewrite Hlist. cbn [fst snd].
    unfold reconcilePod. cbv zeta.
    destruct (walk_along_chain _ _ _ _ _ _ _ fuel Hchain Hfuel)
      as (fetches & -> & _ & _ & Hget).
    cbn [outcome world events fst snd]. unfold patchOwner. cbv zeta.
    cbn [kind name namespace]. rewrite Hnode. cbn [fst snd].
    cbn [prepend outcome world events fst snd app].
    exists fetches. eexists. split; [exact Hget|reflexivity].
  - apply parse_patch, label_value_plain, Hvalid.
  - intros value Hv. apply parse_patch, label_value_plain, Hv.
  - intros *. apply reSchedulePod_patch_body.
Qed.

End patch_facts.

(** ** Work keys *)

Section key_facts.

Lemma splitSlash_slashFree s : slashFree s = true -> cache.splitSlash s = [s].
Proof.
  induction s as [|c s IH]; [reflexivity|]. unfold slashFree. cbn [allChars].
  intros [Hc Hs]%andb_prop. apply negb_true_iff in Hc.
  cbn [cache.splitSlash]. now rewrite Hc, (IH Hs).
Qed.

Lemma splitSlash_app a b :
  slashFree a = true ->
  cache.splitSlash (a +:+ String "/" b) = a :: cache.splitSlash b.
Proof.
  induction a as [|c a IH]; [reflexivity|]. unfold slashFree. cbn [allChars].
  intros [Hc Ha]%andb_prop. apply negb_true_iff in Hc.
  change (String c a +:+ String "/" b) with (String c (a +:+ String "/" b)).
  cbn [cache.splitSlash]. now rewrite Hc, (IH Ha).
Qed.

(** The key [enqueuePod] computes for an object whose name and namespace
    have no slash splits back into that namespace and name: such a key is
    never malformed. *)
Lemma key_splits_back (meta : metav1.ObjectMeta) key :
  slashFree (metav1.Namespace meta) = true ->
  slashFree (metav1.Name meta) = true ->
  cache.MetaNamespaceKeyFunc meta = inr key ->
  cache.SplitMetaNamespaceKey key = inr (metav1.Namespace meta, metav1.Name meta).
Proof.
  intros Hns Hnm. unfold cache.MetaNamespaceKeyFunc, cache.SplitMetaNamespaceKey.
  destruct (metav1.Namespace meta) as [|c ns] eqn:Ens.
  - cbn. intros [= <-]. now rewrite (splitSlash_slashFree _ Hnm).
  - cbn [String.length Nat.ltb Nat.leb]. intros [= <-].
    change ("/" +:+ metav1.Name meta) with (String "/" (metav1.Name meta)).
    now rewrite (splitSlash_app _ _ Hns), (splitSlash_slashFree _ Hnm).
Qed.

End key_facts.

(** * Further properties of the code *)

(** ** handleObject *)

Section handleObject_more.

Context {W : Type} `{!Clientset W} `{!PodLister W} `{!Workqueue W} `{!PluralNamer}.

Implicit Types (pod : v1.Pod) (w : W) (evs : list Event).

Lemma scanCall_more pod names names' e :
  (forall c, In c names -> In c names') ->
  scanCall pod names e = true -> scanCall pod names' e = true.
Proof.
  intros Hsub. destruct e; cbn; try easy.
  intros [Hid Hc]%andb_prop. rewrite Hid. cbn.
  apply existsb_exists in Hc as (c & Hin & Heq). apply existsb_exists.
  exists c. auto.
Qed.

Lemma scanContainers_calls pod cts w :
  forallb (scanCall pod (map v1.ct_Name cts)) (events (scanContainers pod cts w)) = true.
Proof.
  revert w. induction cts as [|ct rest IH]; intros w; [reflexivity|].
  assert (forallb (scanCall pod (map v1.ct_Name (ct :: rest)))
                  (events (scanContainers pod rest (snd (podLogs
                     (metav1.Namespace (v1.pod_meta pod))
                     (metav1.Name (v1.pod_meta pod)) (v1.ct_Name ct) w)))) = true) as Hrest.
  { apply forallb_forall. intros e He.
    apply (scanCall_more pod (map v1.ct_Name rest)); [intros c Hc; now right|].
    revert e He. apply forallb_forall, IH. }
  assert (forall r, scanCall pod (map v1.ct_Name (ct :: rest))
                      (EvGetLogs (metav1.Namespace (v1.pod_meta pod))
                         (metav1.Name (v1.pod_meta pod)) (v1.ct_Name ct) r) = true) as Hfetch.
  { intros r. cbn. now rewrite !String.eqb_refl. }
  rewrite scanContainers_cons. cbv zeta.
  destruct (podLogs _ _ _ w) as [r w1]. cbn [fst snd] in *.
  destruct r as [err|err|content closeErr].
  - cbn [prepend events snd app forallb]. now rewrite Hfetch, Hrest.
  - cbn [prepend events snd app forallb]. now rewrite Hfetch, Hrest.
  - assert (forallb (scanCall pod (map v1.ct_Name (ct :: rest)))
                    (copiedEvents (metav1.Namespace (v1.pod_meta pod))
                       (metav1.Name (v1.pod_meta pod)) (v1.ct_Name ct) content closeErr)
            = true) as Hcopied.
    { unfold copiedEvents. cbn [forallb]. rewrite Hfetch.
      destruct (Nat.eqb _ 0); destruct closeErr; reflexivity. }
    destruct (String.eqb content errorMessage).
    + cbn [events snd]. rewrite forallb_app, Hcopied. cbn.
      now rewrite String.eqb_refl.
    + cbn [prepend events snd]. now rewrite forallb_app, Hcopied, Hrest.
Qed.

Lemma scanStatuses_calls pod css w :
  forallb (scanCall pod (map v1.ct_Name (v1.Containers (v1.Spec pod))))
          (events (scanStatuses pod css w)) = true.
Proof.
  revert w. induction css as [|cs rest IH]; intros w; [reflexivity|].
  cbn [scanStatuses]. destruct (isCrashLoopStatus cs); [|apply IH].
  rewrite bind_run.
  destruct (scanContainers_shape pod (v1.Containers (v1.Spec pod)) w) as (b & Hout & _).
  rewrite Hout. pose proof (scanContainers_calls pod (v1.Containers (v1.Spec pod)) w) as Hc.
  destruct b; cbn [prepend events snd ret]; rewrite forallb_app, Hc; [reflexivity|].
  apply IH.
Qed.

Lemma quiet_no_add evs : forallb quiet evs = true -> List.filter isQueueAdd evs = [].
Proof.
  induction evs as [|e evs IH]; [reflexivity|]. cbn [forallb List.filter].
  intros [He Hq]%andb_prop. unfold quiet in He. apply andb_prop in He as [_ He].
  apply negb_true_iff in He. now rewrite He, (IH Hq).
Qed.

Lemma klog_no_add notes : forallb isKlog notes = true -> List.filter isQueueAdd notes = [].
Proof.
  induction notes as [|e notes IH]; [reflexivity|]. cbn [forallb List.filter].
  intros [He Hn]%andb_prop. destruct e; try discriminate. exact (IH Hn).
Qed.

(** X1: [handleObject] calls nothing but GetLogs on the pod it was given
    (its namespace, its name, a container of its spec) and the logger, and
    puts at most one item on the queue: the key of that pod, as its last
    call. *)
Theorem handleObject_only_reads_logs_and_adds_once pod w :
  let evs := events (handleObject pod w) in
  forallb (scanCall pod (map v1.ct_Name (v1.Containers (v1.Spec pod)))) evs = true
  /\ (List.filter isQueueAdd evs = []
      \/ (List.filter isQueueAdd evs = [EvQueueAdd (ItemString (podKey pod))]
          /\ exists before, evs = before ++ [EvQueueAdd (ItemString (podKey pod))])).
Proof.
  cbv zeta. unfold handleObject. split; [apply scanStatuses_calls|].
  destruct (scanStatuses_shape pod (v1.ContainerStatuses (v1.Status pod)) w)
    as (_ & b & Hshape).
  destruct b; cbn in Hshape.
  - right. destruct Hshape as (pre & c & ce & notes & rest & -> & Hpre & Hnotes & _).
    split.
    + rewrite List.filter_app, (quiet_no_add _ Hpre). cbn [List.filter isQueueAdd app].
      now rewrite List.filter_app, (klog_no_add _ Hnotes).
    + eexists (pre ++ _ :: notes). now rewrite <- app_assoc.
  - left. apply quiet_no_add, Hshape.
Qed.

Lemma length_scanOrder pod css :
  length (scanOrder pod css) = crashLoops css * length (v1.Containers (v1.Spec pod)).
Proof.
  unfold scanOrder, crashLoops. induction css as [|cs rest IH]; [reflexivity|].
  cbn [flat_map List.filter]. rewrite length_app, IH.
  destruct (isCrashLoopStatus cs); cbn [length]; [|reflexivity].
  now rewrite length_map.
Qed.

Lemma count_fetches evs : count isGetLogs evs = length (fetchedContainers evs).
Proof.
  unfold count, fetchedContainers. induction evs as [|e evs IH]; [reflexivity|].
  destruct e; cbn in *; auto.
Qed.

(** X2: [handleObject] fetches at most one log per container of the spec
    for every container status in a crash loop, and exactly that many when it
    does not enqueue the pod: two crash-looping statuses make it read every
    log twice. *)
Theorem handleObject_fetch_count pod w :
  let evs := events (handleObject pod w) in
  let bound := crashLoops (v1.ContainerStatuses (v1.Status pod))
               * length (v1.Containers (v1.Spec pod)) in
  count isGetLogs evs <= bound
  /\ (~ enqueued pod evs -> count isGetLogs evs = bound).
Proof.
  cbv zeta. unfold handleObject. rewrite count_fetches, <- length_scanOrder.
  destruct (scanStatuses_shape pod (v1.ContainerStatuses (v1.Status pod)) w)
    as (_ & b & Hshape).
  destruct (ScanShape_prefix _ _ _ _ Hshape) as (rest & Horder & Hrest).
  rewrite Horder, length_app. split; [lia|].
  intros Hne. destruct b.
  - exfalso. apply Hne. now apply (ScanShape_enqueued _ _ _ _ Hshape).
  - rewrite (Hrest eq_refl). cbn. lia.
Qed.

End handleObject_more.

(** ** The owner walk *)

Section owner_walk_more.

Context {W : Type} `{!Clientset W} `{!PodLister W} `{!Workqueue W} `{!PluralNamer}.

Implicit Types (w : W) (obj : metav1.ObjectMeta) (evs : list Event).

Lemma GetControllerOf_first obj :
  metav1.GetControllerOf obj = head (List.filter isController (metav1.OwnerReferences obj)).
Proof.
  unfold metav1.GetControllerOf.
  induction (metav1.OwnerReferences obj) as [|ref refs IH]; [reflexivity|].
  cbn [metav1.GetControllerOf_refs List.filter]. unfold isController at 1.
  destruct (metav1.ref_Controller ref) as [[|]|]; [reflexivity|exact IH|exact IH].
Qed.

(** X3: the walk looks at the first owner reference whose Controller flag
    is set and true, and at nothing else of the owner references: two
    objects of the same name and namespace that agree on that reference are
    walked alike, and an object none of whose references is a controller is
    returned as it is, without a fetch. *)
Theorem walk_follows_first_controller_only fuel obj obj' k w
  (Hname : metav1.Name obj = metav1.Name obj')
  (Hns : metav1.Namespace obj = metav1.Namespace obj')
  (Hfirst : head (List.filter isController (metav1.OwnerReferences obj))
            = head (List.filter isController (metav1.OwnerReferences obj'))) :
  getOriginControllerObject fuel (RObject obj) k w
  = getOriginControllerObject fuel (RObject obj') k w
  /\ (List.filter isController (metav1.OwnerReferences obj) = [] ->
      getOriginControllerObject (S fuel) (RObject obj) k w
      = (Ret (inr {| kind := k; name := metav1.Name obj;
                     namespace := metav1.Namespace obj |}), w, [])).
Proof.
  split.
  - destruct fuel as [|fuel]; [reflexivity|].
    rewrite !getOriginControllerObject_step, !GetControllerOf_first, Hfirst, Hname, Hns.
    reflexivity.
  - intros Hnone. rewrite getOriginControllerObject_step, GetControllerOf_first, Hnone.
    reflexivity.
Qed.

End owner_walk_more.

(** ** The reconciler *)

Section reconciler_more.

Context {W : Type} `{!Clientset W} `{!PodLister W} `{!Workqueue W} `{!PluralNamer}.

Implicit Types (w : W) (evs : list Event) (key : string).

(** X4: an error of the lister other than not-found is a failure to retry:
    the worker reads nothing further, patches nothing, calls AddRateLimited
    and then Done on the key, reports the error with the key, and goes on. *)
Theorem lister_error_is_retried fuel key w w0 ns nm err w1
  (Hget : wqGet w = ((ItemString key, false), w0))
  (Hsplit : cache.SplitMetaNamespaceKey key = inr (ns, nm))
  (Hlist : listerGet ns nm w0 = (inl err, w1))
  (Hother : IsNotFound err = false) :
  processEnqueuedItem fuel w
  = (Ret true, wqDone (ItemString key) (wqAddRateLimited (ItemString key) w1),
     [EvQueueGet (ItemString key) false;
      EvListerGet ns nm (inl err);
      EvQueueAddRateLimited (ItemString key);
      EvQueueDone (ItemString key);
      EvHandleError
        (fmt.Sprintf "%s"
           [fmt.Sprintf "Failed to patch to reschedule '%s' pod : %s, requeuing"
                        [key; Error err]])]).
Proof.
  rewrite processEnqueuedItem_run, Hget. cbv zeta. cbn [fst snd].
  rewrite processItem_run. cbv zeta. rewrite reSchedulePod_run, Hsplit. cbv zeta.
  rewrite Hlist. cbn [fst snd]. rewrite Hother. reflexivity.
Qed.

Lemma fetches_no_patch evs : forallb isRestGet evs = true -> existsb isPatchCall evs = false.
Proof.
  induction evs as [|e evs IH]; [reflexivity|]. cbn [forallb existsb].
  intros [He Hall]%andb_prop. destruct e; try discriminate. exact (IH Hall).
Qed.

Lemma fetches_reconcileCall evs :
  forallb isRestGet evs = true -> forallb reconcileCall evs = true.
Proof.
  induction evs as [|e evs IH]; [reflexivity|]. cbn [forallb].
  intros [He Hall]%andb_prop. destruct e; try discriminate. cbn. exact (IH Hall).
Qed.

Lemma fetches_answered evs :
  forallb isRestGet evs = true -> existsb isFailure evs = false ->
  forallb isAnsweredRead evs = true.
Proof.
  induction evs as [|e evs IH]; [reflexivity|]. cbn [forallb existsb].
  intros [He Hall]%andb_prop [Hf Hrest]%orb_false_elim.
  destruct e as [| |resource ns nm [err|r]| | | | | | | | |]; try discriminate.
  cbn. exact (IH Hall Hrest).
Qed.

Lemma not_patch_in evs e :
  existsb isPatchCall evs = false -> In e evs -> isPatchCall e = false.
Proof.
  intros Hnone Hin. destruct (isPatchCall e) eqn:He; [|reflexivity].
  assert (existsb isPatchCall evs = true) by (apply existsb_exists; eauto). congruence.
Qed.

Lemma reSchedulePod_trace fuel key w :
  ReconcileTrace (events (reSchedulePod fuel key w)) (outcome (reSchedulePod fuel key w)).
Proof.
  rewrite reSchedulePod_run.
  destruct (cache.SplitMetaNamespaceKey key) as [e|[ns nm]]; [apply trace_bad_key|].
  cbv zeta. destruct (listerGet ns nm w) as [[e|pod] w1]; cbn [fst snd].
  { destruct (IsNotFound e); [apply trace_gone|apply trace_lister_error]. }
  cbn [prepend events outcome fst snd app]. unfold reconcilePod. cbv zeta.
  pose proof (getOriginControllerObject_events fuel (RObject (v1.pod_meta pod))
                (v1.Kind pod) w1) as Hget.
  pose proof (walk_failure_outcome fuel (RObject (v1.pod_meta pod)) (v1.Kind pod) w1)
    as Hfail.
  destruct (outcome (getOriginControllerObject fuel _ _ w1)) as [[e|cobj]|msg|] eqn:Hout;
    cbn [prepend events outcome fst snd];
    try (apply trace_walk; [exact Hget|discriminate]).
  assert (forallb isAnsweredRead
            (events (getOriginControllerObject fuel (RObject (v1.pod_meta pod))
                       (v1.Kind pod) w1)) = true) as Hans.
  { apply fetches_answered; [exact Hget|].
    destruct (existsb isFailure _) eqn:Hex; [|reflexivity].
    destruct (Hfail eq_refl) as [e He]. discriminate. }
  unfold patchOwner. cbv zeta.
  destruct (nodeGet _ _) as [[e|node] w3]; cbn [fst snd events outcome].
  - now apply trace_node_error.
  - destruct (restPatch _ _ _ _ w3) as [r w4]. cbn [fst snd]. now apply trace_patch.
Qed.

Lemma fetches_not_patch evs :
  forallb isRestGet evs = true -> forallb (fun e => negb (isPatchCall e)) evs = true.
Proof.
  induction evs as [|e evs IH]; [reflexivity|]. cbn [forallb].
  intros [He Hall]%andb_prop. destruct e; try discriminate. exact (IH Hall).
Qed.

Lemma no_patch_split evs before e after :
  forallb (fun a => negb (isPatchCall a)) evs = true ->
  evs = before ++ e :: after -> isPatchCall e = true -> False.
Proof.
  intros Hnone -> He. rewrite forallb_app in Hnone. cbn in Hnone.
  rewrite He in Hnone. cbn in Hnone. now rewrite andb_false_r in Hnone.
Qed.

Lemma trace_calls evs out : ReconcileTrace evs out -> forallb reconcileCall evs = true.
Proof.
  intros [msg|ns nm err msg|ns nm err|ns nm pod fetches out' Hf _
         |ns nm pod fetches node err Hf Ha
         |ns nm pod fetches nodeName node pns resource pnm body r Hf Ha];
    try reflexivity.
  - cbn. apply fetches_reconcileCall, Hf.
  - cbn [forallb]. rewrite forallb_app, (fetches_reconcileCall _ Hf). reflexivity.
  - cbn [forallb]. rewrite forallb_app, (fetches_reconcileCall _ Hf). reflexivity.
Qed.

(** X5: [reSchedulePod] calls the lister, the owner fetches, the node read,
    the patch and the error reporter only (never the queue, never a log);
    a patch is its last call, and every call before it is a read that was
    answered: the pod, each owner of the chain, the node. *)
Theorem reSchedulePod_patches_last fuel key w :
  let evs := events (reSchedulePod fuel key w) in
  forallb reconcileCall evs = true
  /\ (forall before e after,
        evs = before ++ e :: after -> isPatchCall e = true ->
        after = [] /\ forallb isAnsweredRead before = true).
Proof.
  cbv zeta. destruct (reSchedulePod_trace fuel key w)
    as [msg|ns nm err msg|ns nm err|ns nm pod fetches out Hf _
        |ns nm pod fetches node err Hf Ha
        |ns nm pod fetches nodeName node pns resource pnm body r Hf Ha].
  - split; [reflexivity|]. intros before e after Heq He.
    exfalso. refine (no_patch_split _ _ _ _ _ Heq He). reflexivity.
  - split; [reflexivity|]. intros before e after Heq He.
    exfalso. refine (no_patch_split _ _ _ _ _ Heq He). reflexivity.
  - split; [reflexivity|]. intros before e after Heq He.
    exfalso. refine (no_patch_split _ _ _ _ _ Heq He). reflexivity.
  - split; [cbn; apply fetches_reconcileCall, Hf|]. intros before e after Heq He.
    exfalso. refine (no_patch_split _ _ _ _ _ Heq He). cbn.
    apply fetches_not_patch, Hf.
  - split.
    + cbn [forallb]. rewrite forallb_app, (fetches_reconcileCall _ Hf). reflexivity.
    + intros before e after Heq He. exfalso. refine (no_patch_split _ _ _ _ _ Heq He).
      cbn [forallb]. rewrite forallb_app, (fetches_not_patch _ Hf). reflexivity.
  - split.
    + cbn [forallb]. rewrite forallb_app, (fetches_reconcileCall _ Hf). reflexivity.
    + intros before e after Heq He.
      change (EvListerGet ns nm (inr pod)
              :: fetches ++ [EvNodeGet nodeName (inr node);
                             EvRestPatch pns resource pnm body r])
        with ((EvListerGet ns nm (inr pod) :: fetches)
              ++ [EvNodeGet nodeName (inr node)]
              ++ [EvRestPatch pns resource pnm body r]) in Heq.
      rewrite app_assoc in Heq.
      apply (split_at_unique isPatchCall) in Heq as (<- & _ & <-); try assumption.
      * split; [reflexivity|]. rewrite forallb_app. cbn. now rewrite Ha.
      * rewrite forallb_app. cbn. now rewrite (fetches_not_patch _ Hf).
      * reflexivity.
Qed.

(** X6: when the lister has the pod, its owner chain ends at [top] and its
    node can be read, [reSchedulePod] sends exactly one patch, to [top]: the
    resource is the plural of the kind under which the chain reached [top],
    the namespace and name are those of [top], and the body is the template
    filled with the architecture label of the node; the result of
    [reSchedulePod] is the result of that patch. *)
Theorem reSchedulePod_patches_chain_top fuel key w ns nm pod w1 n w2 top topKind node w3
  (Hsplit : cache.SplitMetaNamespaceKey key = inr (ns, nm))
  (Hlist : listerGet ns nm w = (inr pod, w1))
  (Hchain : OwnerChain w1 (v1.pod_meta pod) (v1.Kind pod) n w2 top topKind)
  (Hfuel : n < fuel)
  (Hnode : nodeGet (v1.NodeName (v1.Spec pod)) w2 = (inr node, w3)) :
  let body := fmt.Sprintf patchJSON
                [metav1.label (metav1.Labels (v1.node_meta node))
                              "beta.kubernetes.io/arch"] in
  let patched := restPatch (metav1.Namespace top) (lowercaseAndPluralise topKind)
                           (metav1.Name top) body w3 in
  outcome (reSchedulePod fuel key w) = Ret (fst patched)
  /\ world (reSchedulePod fuel key w) = snd patched
  /\ exists fetches,
      length fetches = n
      /\ forallb isRestGet fetches = true
      /\ events (reSchedulePod fuel key w)
         = EvListerGet ns nm (inr pod)
           :: fetches
           ++ [EvNodeGet (v1.NodeName (v1.Spec pod)) (inr node);
               EvRestPatch (metav1.Namespace top) (lowercaseAndPluralise topKind)
                           (metav1.Name top) body (fst patched)].
Proof.
  cbv zeta. rewrite reSchedulePod_run, Hsplit. cbv zeta. rewrite Hlist. cbn [fst snd].
  unfold reconcilePod. cbv zeta.
  destruct (walk_along_chain _ _ _ _ _ _ _ fuel Hchain Hfuel)
    as (fetches & -> & Hlen & _ & Hget).
  cbn [outcome world events fst snd]. unfold patchOwner. cbv zeta.
  cbn [kind name namespace]. rewrite Hnode. cbn [fst snd].
  cbn [prepend outcome world events fst snd app].
  repeat split. exists fetches. auto.
Qed.


Lemma length_splitSlash s : length (cache.splitSlash s) = S (slashes s).
Proof.
  induction s as [|c s IH]; [reflexivity|]. cbn [cache.splitSlash slashes].
  destruct (Ascii.eqb c "/"); cbn [length]; [now rewrite IH|].
  destruct (cache.splitSlash s); cbn in *; lia.
Qed.

Lemma splitSlash_two s a b :
  cache.splitSlash s = [a; b] -> s = a +:+ String "/" b.
Proof.
  revert a. induction s as [|c s IH]; intros a; [discriminate|].
  cbn [cache.splitSlash]. destruct (Ascii.eqb c "/") eqn:Hc.
  - apply Ascii.eqb_eq in Hc. subst c. intros [= <- Hrest].
    assert (slashes s = 0) as Hs
        by (pose proof (length_splitSlash s) as Hl; rewrite Hrest in Hl; cbn in Hl; lia).
    assert (forall t, slashes t = 0 -> cache.splitSlash t = [t]) as Hfree.
    { induction t as [|c t IHt]; [reflexivity|]. cbn [slashes cache.splitSlash].
      destruct (Ascii.eqb c "/"); [discriminate|]. intros Ht. now rewrite (IHt Ht). }
    rewrite (Hfree _ Hs) in Hrest. now injection Hrest as ->.
  - destruct (cache.splitSlash s) as [|part [|part' parts]] eqn:Hs; try discriminate.
    intros [= <- <- ->]. now rewrite (IH part eq_refl).
Qed.

(** X8: [reSchedulePod] gives up on a key exactly when it has two slashes
    or more: it reports the key and returns nil without any read.  A key with
    one slash is looked up under the texts before and after the slash, a key
    without slash under the empty namespace. *)
Theorem reSchedulePod_key_forms fuel key w :
  (2 <= slashes key ->
   reSchedulePod fuel key w
   = (Ret None, w, [EvHandleError (fmt.Sprintf "Invalid resource key: %s" [key])]))
  /\ (slashes key = 1 ->
      exists ns nm rest,
        key = ns +:+ String "/" nm
        /\ events (reSchedulePod fuel key w)
           = EvListerGet ns nm (fst (listerGet ns nm w)) :: rest)
  /\ (slashes key = 0 ->
      exists rest,
        events (reSchedulePod fuel key w)
        = EvListerGet EmptyString key (fst (listerGet EmptyString key w)) :: rest).
Proof.
  assert (forall ns nm,
             cache.SplitMetaNamespaceKey key = inr (ns, nm) ->
             exists rest, events (reSchedulePod fuel key w)
                          = EvListerGet ns nm (fst (listerGet ns nm w)) :: rest) as Hlookup.
  { intros ns nm Hsplit. rewrite reSchedulePod_run, Hsplit. cbv zeta.
    destruct (listerGet ns nm w) as [[e|pod] w1]; cbn [fst snd].
    - destruct (IsNotFound e); eexists; reflexivity.
    - eexists. reflexivity. }
  pose proof (length_splitSlash key) as Hlen.
  unfold cache.SplitMetaNamespaceKey in *.
  destruct (cache.splitSlash key) as [|a [|b [|c parts]]] eqn:Hparts; cbn in Hlen.
  - lia.
  - split; [lia|]. split; [lia|]. intros _.
    assert (key = a) as <-.
    { assert (forall t, slashes t = 0 -> cache.splitSlash t = [t]) as Hfree.
      { induction t as [|c t IHt]; [reflexivity|]. cbn [slashes cache.splitSlash].
        destruct (Ascii.eqb c "/"); [discriminate|]. intros Ht. now rewrite (IHt Ht). }
      rewrite Hfree in Hparts by lia. now injection Hparts. }
    exact (Hlookup _ _ eq_refl).
  - split; [lia|]. split; [|lia]. intros _.
    destruct (Hlookup _ _ eq_refl) as [rest Hrest].
    exists a, b, rest. split; [exact (splitSlash_two _ _ _ Hparts)|exact Hrest].
  - split; [|split; lia]. intros _. rewrite reSchedulePod_run.
    unfold cache.SplitMetaNamespaceKey. now rewrite Hparts.
Qed.

(** X9: the key [enqueuePod] puts on the queue for a pod whose namespace
    and name have no slash brings the worker back to that pod: the first
    thing [processEnqueuedItem] does with it is to ask the lister for that
    namespace and name. *)
Theorem enqueued_key_finds_pod fuel pod w w0
  (Hns : slashFree (metav1.Namespace (v1.pod_meta pod)) = true)
  (Hnm : slashFree (metav1.Name (v1.pod_meta pod)) = true)
  (Hget : wqGet w = ((ItemString (podKey pod), false), w0)) :
  exists rest,
    events (processEnqueuedItem fuel w)
    = EvQueueGet (ItemString (podKey pod)) false
      :: EvListerGet (metav1.Namespace (v1.pod_meta pod)) (metav1.Name (v1.pod_meta pod))
           (fst (listerGet (metav1.Namespace (v1.pod_meta pod))
                           (metav1.Name (v1.pod_meta pod)) w0))
      :: rest.
Proof.
  assert (cache.SplitMetaNamespaceKey (podKey pod)
          = inr (metav1.Namespace (v1.pod_meta pod), metav1.Name (v1.pod_meta pod)))
    as Hsplit.
  { apply key_splits_back; try assumption. unfold podKey, cache.MetaNamespaceKeyFunc.
    now destruct (Nat.ltb _ _). }
  destruct (processEnqueuedItem_verdict fuel _ w w0 Hget) as ((tail & -> & _) & _).
  rewrite reSchedulePod_run, Hsplit. cbv zeta.
  destruct (listerGet _ _ w0) as [[e|p] w1]; cbn [fst snd].
  - destruct (IsNotFound e); eexists; reflexivity.
  - eexists. reflexivity.
Qed.


End reconciler_more.

(** ** The worker loop and Run *)

Section run_facts.

Context {W : Type} `{!Clientset W} `{!PodLister W} `{!Workqueue W} `{!PluralNamer}
        `{!Lifecycle W}.

Implicit Types (w : W) (evs : list Event).

Lemma reSchedulePod_no_get_done fuel key w :
  List.filter isGetOrDone (events (reSchedulePod fuel key w)) = [].
Proof.
  pose proof (trace_calls _ _ (reSchedulePod_trace fuel key w)) as Hcalls.
  induction (events (reSchedulePod fuel key w)) as [|e evs IH]; [reflexivity|].
  cbn [forallb] in Hcalls. apply andb_prop in Hcalls as [He Hcalls].
  cbn [List.filter]. destruct e; try discriminate; cbn; auto.
Qed.

(** One round of the worker, seen from the queue. *)
Lemma processEnqueuedItem_round fuel w :
  let got := fst (wqGet w) in
  let run := processEnqueuedItem fuel w in
  if snd got
  then run = (Ret false, snd (wqGet w), [EvQueueGet (fst got) true])
  else match outcome run with
       | Ret continue =>
           continue = true
           /\ List.filter isGetOrDone (events run) = served (fst got)
           /\ exists before, events run = before ++ [EvQueueDone (fst got)]
                             \/ exists msg, events run
                                            = before ++ [EvQueueDone (fst got);
                                                         EvHandleError msg]
       | Panic _ =>
           List.filter isGetOrDone (events run) = served (fst got)
           /\ exists before, events run = before ++ [EvQueueDone (fst got)]
       | OutOfFuel => List.filter isGetOrDone (events run) = [EvQueueGet (fst got) false]
       end.
Proof.
  cbv zeta. rewrite processEnqueuedItem_run. cbv zeta.
  destruct (wqGet w) as [[obj shutdown] w0]. cbn [fst snd].
  destruct shutdown; [reflexivity|]. rewrite processItem_run.
  destruct obj as [key|goSyntax].
  - cbv zeta. pose proof (reSchedulePod_no_get_done fuel key w0) as Hnone.
    destruct (outcome (reSchedulePod fuel key w0)) as [[e|]|msg|];
      cbn [prepend outcome world events fst snd app List.filter isGetOrDone];
      rewrite ?List.filter_app, ?Hnone; cbn [app List.filter isGetOrDone].
    + split; [reflexivity|]. split; [reflexivity|].
      eexists (_ :: events (reSchedulePod fuel key w0) ++ [_]). right. eexists.
      cbn [app]. rewrite <- !app_assoc. reflexivity.
    + split; [reflexivity|]. split; [reflexivity|].
      eexists (_ :: events (reSchedulePod fuel key w0) ++ [_; _]). left.
      cbn [app]. rewrite <- !app_assoc. reflexivity.
    + split; [reflexivity|]. eexists (_ :: events (reSchedulePod fuel key w0)).
      reflexivity.
    + reflexivity.
  - cbn. split; [reflexivity|]. split; [reflexivity|].
    eexists [_; _; _]. left. reflexivity.
Qed.

(** X10: seen from the queue, the worker loop serves the items one at a
    time: every item it is handed is marked Done before the next Get, also
    the item whose processing panics, and the loop returns only on a Get
    that signals shutdown. *)
Theorem workerLoop_serves_one_at_a_time rounds fuel w :
  let run := workerLoop rounds fuel w in
  exists items ending,
    List.filter isGetOrDone (events run) = flat_map served items ++ ending
    /\ match outcome run with
       | Ret _ => exists last, ending = [EvQueueGet last true]
       | Panic _ => ending = [] /\ items <> []
       | OutOfFuel => ending = [] \/ exists item, ending = [EvQueueGet item false]
       end.
Proof.
  cbv zeta. revert w. induction rounds as [|rounds IH]; intros w.
  - exists [], []. cbn. auto.
  - rewrite workerLoop_step. cbv zeta.
    pose proof (processEnqueuedItem_round fuel w) as Hround. cbv zeta in Hround.
    destruct (snd (fst (wqGet w))).
    + rewrite Hround. cbn [outcome world events fst snd].
      exists [], [EvQueueGet (fst (fst (wqGet w))) true]. cbn. eauto.
    + destruct (outcome (processEnqueuedItem fuel w)) as [continue|msg|].
      * destruct Hround as (-> & Hserved & _).
        destruct (IH (world (processEnqueuedItem fuel w))) as (items & ending & Hev & Hend).
        exists (fst (fst (wqGet w)) :: items), ending.
        cbn [prepend outcome events fst snd flat_map].
        rewrite List.filter_app, Hserved, Hev, <- app_assoc. split; [reflexivity|].
        destruct (outcome (workerLoop rounds fuel _)); [exact Hend| |exact Hend].
        split; [apply Hend|discriminate].
      * destruct Hround as (Hserved & _).
        exists [fst (fst (wqGet w))], []. cbn [outcome events fst snd flat_map].
        rewrite Hserved, !app_nil_r. split; [reflexivity|]. split; [reflexivity|discriminate].
      * exists [], [EvQueueGet (fst (fst (wqGet w))) false].
        cbn [outcome events fst snd flat_map app]. eauto.
Qed.

(** The last queue event of a loop that has ended. *)
Lemma workerLoop_last_event rounds fuel w :
  match outcome (workerLoop rounds fuel w) with
  | Ret _ =>
      exists before last,
        events (workerLoop rounds fuel w) = before ++ [EvQueueGet last true]
  | Panic _ =>
      exists before item,
        events (workerLoop rounds fuel w) = before ++ [EvQueueDone item]
  | OutOfFuel => True
  end.
Proof.
  revert w. induction rounds as [|rounds IH]; intros w; [exact I|].
  rewrite workerLoop_step. cbv zeta.
  pose proof (processEnqueuedItem_round fuel w) as Hround. cbv zeta in Hround.
  destruct (snd (fst (wqGet w))).
  - rewrite Hround. cbn [outcome world events fst snd]. exists []. eauto.
  - destruct (outcome (processEnqueuedItem fuel w)) as [continue|msg|].
    + destruct Hround as (-> & _). specialize (IH (world (processEnqueuedItem fuel w))).
      cbn [prepend outcome events fst snd].
      destruct (outcome (workerLoop rounds fuel _));
        [|destruct IH as (before & item & ->)|exact I].
      * destruct IH as (before & last & ->).
        exists (events (processEnqueuedItem fuel w) ++ before), last.
        now rewrite app_assoc.
      * exists (events (processEnqueuedItem fuel w) ++ before), item.
        now rewrite app_assoc.
    + destruct Hround as (_ & before & ->). cbn [outcome events fst snd]. eauto.
    + exact I.
Qed.

(** X11: [Run] shuts the queue down on every way out, after all the work:
    when the cache cannot be synced it returns the error without a single
    Get; it returns nil only after a Get that signalled shutdown; and when
    the processing of an item panics, the item is marked Done, the queue is
    shut down, the crash is reported, and the panic goes on. *)
Theorem Run_shuts_down_on_every_exit rounds fuel w :
  let run := Run rounds fuel w in
  match fst (fst run) with
  | Ret None =>
      exists before last,
        snd run = before ++ [Work (EvQueueGet last true); EvQueueShutDown]
        /\ In (EvCacheSync true) before
  | Ret (Some err) =>
      Error err = "Failed to wait for sync to cache"
      /\ exists started,
          snd run = started ++ [EvCacheSync false; EvQueueShutDown]
          /\ forall e, In (Work e) started -> isKlog e = true
  | Panic msg =>
      exists before item,
        snd run = before ++ [Work (EvQueueDone item); EvQueueShutDown; EvCrash msg]
  | OutOfFuel => True
  end.
Proof.
  cbv zeta. unfold Run, runBody. cbv zeta.
  destruct (waitForCacheSync (informerStart w)) as [synced w2]. cbn [fst snd].
  destruct synced; cbn [fst snd].
  - pose proof (workerLoop_last_event rounds fuel w2) as Hlast.
    destruct (outcome (workerLoop rounds fuel w2)) as [u|msg|]; cbn [fst snd]; [| |exact I].
    + destruct Hlast as (before & last & ->). rewrite map_app. cbn [map app].
      exists (EvInformerStart
              :: Work (EvKlog SevInfo (fmt.Sprintf "Starting Arch scheduling controller" []))
              :: Work (EvKlog SevInfo (fmt.Sprintf "Waiting for informer caches to sync" []))
              :: EvCacheSync true :: map Work before), last.
      split.
      * cbn [app]. now rewrite <- app_assoc.
      * right. right. right. now left.
    + destruct Hlast as (before & item & ->). rewrite map_app. cbn [map app].
      exists (EvInformerStart
              :: Work (EvKlog SevInfo (fmt.Sprintf "Starting Arch scheduling controller" []))
              :: Work (EvKlog SevInfo (fmt.Sprintf "Waiting for informer caches to sync" []))
              :: EvCacheSync true :: map Work before), item.
      cbn [app]. now rewrite <- app_assoc.
  - split; [reflexivity|]. eexists [_; _; _]. split; [reflexivity|].
    intros e [Hin|[Hin|[Hin|[]]]]; [discriminate| |]; now injection Hin as <-.
Qed.

End run_facts.

(** ** Panics *)

Section panic_facts.

Context {W : Type} `{!Clientset W} `{!PodLister W} `{!Workqueue W} `{!PluralNamer}.

Implicit Types (w : W) (evs : list Event).

Lemma walk_panic fuel res k w msg :
  outcome (getOriginControllerObject fuel res k w) = Panic msg ->
  (res = RNoMeta /\ events (getOriginControllerObject fuel res k w) = [])
  \/ exists before resource ns nm,
      events (getOriginControllerObject fuel res k w)
      = before ++ [EvRestGet resource ns nm (inr RNoMeta)].
Proof.
  revert res k w. induction fuel as [|fuel IH]; intros res k w; [discriminate|].
  destruct res as [obj|]; [|intros _; left; auto].
  rewrite getOriginControllerObject_step.
  destruct (metav1.GetControllerOf obj) as [ref|]; [|discriminate].
  cbv zeta. destruct (restGet _ _ _ w) as [[err|res] w1]; [discriminate|].
  cbn [fst snd prepend outcome events]. intros Hpanic. right.
  destruct (IH _ _ _ Hpanic) as [[-> ->]|(before & resource & ns & nm & ->)].
  - exists []. eauto.
  - eexists (_ :: before). eauto.
Qed.

(** X12: [reSchedulePod] panics only on the type assertion of the owner
    walk: its last call was then an owner fetch that the API answered with a
    value that is no [metav1.Object], and neither the node was read nor a
    patch sent; the worker still marks the item Done, and calls neither
    Forget nor AddRateLimited. *)
Theorem panic_only_after_owner_that_is_no_object fuel key w w0 msg
  (Hget : wqGet w = ((ItemString key, false), w0))
  (Hpanic : outcome (processEnqueuedItem fuel w) = Panic msg) :
  (exists before resource ns nm,
      events (reSchedulePod fuel key w0)
      = before ++ [EvRestGet resource ns nm (inr RNoMeta)])
  /\ existsb isNodeOrPatch (events (processEnqueuedItem fuel w)) = false
  /\ List.filter isQueueCall (events (processEnqueuedItem fuel w))
     = [EvQueueDone (ItemString key)].
Proof.
  destruct (processEnqueuedItem_verdict fuel key w w0 Hget)
    as ((tail & Hev & _ & _ & Htn) & Hverdict).
  destruct (reSchedulePod_facts fuel key w0) as (Hplain & _ & _).
  assert (outcome (reSchedulePod fuel key w0) = Panic msg) as Hinner.
  { destruct (outcome (reSchedulePod fuel key w0)) as [[e|]|m|];
      try (destruct Hverdict as (Hout & _); congruence); congruence. }
  assert ((exists before resource ns nm,
              events (reSchedulePod fuel key w0)
              = before ++ [EvRestGet resource ns nm (inr RNoMeta)])
          /\ existsb isNodeOrPatch (events (reSchedulePod fuel key w0)) = false)
    as [Hlast Hnone].
  { revert Hinner. rewrite reSchedulePod_run.
    destruct (cache.SplitMetaNamespaceKey key) as [e|[ns nm]]; [discriminate|].
    cbv zeta. destruct (listerGet ns nm w0) as [[e|pod] w1]; cbn [fst snd].
    { destruct (IsNotFound e); discriminate. }
    cbn [prepend outcome events fst snd app]. unfold reconcilePod. cbv zeta.
    destruct (walk_events_plain fuel (RObject (v1.pod_meta pod)) (v1.Kind pod) w1)
      as (_ & _ & Hnp).
    pose proof (walk_panic fuel (RObject (v1.pod_meta pod)) (v1.Kind pod) w1) as Hwp.
    destruct (outcome (getOriginControllerObject fuel _ _ w1)) as [[e|cobj]|m|];
      cbn [prepend outcome events fst snd]; try discriminate.
    - unfold patchOwner. cbv zeta. destruct (fst (nodeGet _ _)); discriminate.
    - intros [= ->]. split; [|cbn; exact Hnp].
      destruct (Hwp _ eq_refl) as [[Hno _]|(before & resource & rns & rnm & ->)];
        [discriminate|].
      eexists (_ :: before). eauto. }
  split; [exact Hlast|]. rewrite Hinner in Hverdict. destruct Hverdict as (_ & Hv & Hd).
  split.
  - rewrite Hev, (existsb_tail isNodeOrPatch (EvQueueGet _ _) _ _ eq_refl Htn).
    exact Hnone.
  - revert Hpanic. rewrite processEnqueuedItem_run, Hget. cbv zeta. cbn [fst snd].
    rewrite processItem_run. cbv zeta. rewrite Hinner.
    cbn [prepend outcome events fst snd app List.filter isQueueCall].
    intros _. rewrite List.filter_app.
    rewrite (filter_plain isQueueCall _ Hplain (fun e He => He)). reflexivity.
Qed.

End panic_facts.

(** ** Edges of the owner walk and of the worker *)

Section edge_facts.

Context {W : Type} `{!Clientset W} `{!PodLister W} `{!Workqueue W} `{!PluralNamer}.

Implicit Types (w : W) (obj : metav1.ObjectMeta) (evs : list Event).

(** X13: the walk has no guard against owner references that never end
    (a cycle, say): where every object reached names a controller that the
    API returns, the walk goes on fetching and does not return; after any
    number of steps it has made that many fetches, all answered. *)
Theorem walk_never_ends_on_owner_cycle (P : W -> metav1.ObjectMeta -> Prop)
  (Hstep : forall w obj, P w obj ->
     exists ref owner w',
       metav1.GetControllerOf obj = Some ref
       /\ restGet (lowercaseAndPluralise (metav1.ref_Kind ref)) (metav1.Namespace obj)
                  (metav1.ref_Name ref) w = (inr (RObject owner), w')
       /\ P w' owner)
  fuel obj k w (Hstart : P w obj) :
  let walk := getOriginControllerObject fuel (RObject obj) k w in
  outcome walk = OutOfFuel
  /\ length (events walk) = fuel
  /\ forallb isRestGet (events walk) = true
  /\ forallb isAnsweredRead (events walk) = true.
Proof.
  cbv zeta. revert obj k w Hstart. induction fuel as [|fuel IH]; intros obj k w Hstart.
  - repeat split.
  - rewrite getOriginControllerObject_step.
    destruct (Hstep w obj Hstart) as (ref & owner & w' & -> & Hget & Hnext).
    cbv zeta. rewrite Hget. cbn [fst snd].
    destruct (IH owner (metav1.ref_Kind ref) w' Hnext) as (Hout & Hlen & Hf & Ha).
    cbn [prepend outcome events fst snd app length forallb isRestGet isAnsweredRead].
    rewrite Hout, Hlen, Hf, Ha. repeat split.
Qed.

(** X14: an item of the queue that is no string is dropped without a
    single read: the worker calls Forget on it, reports it, marks it Done and
    goes on; it is not put back on the queue. *)
Theorem item_that_is_no_string_is_dropped rounds fuel goSyntax w w0
  (Hget : wqGet w = ((ItemOther goSyntax, false), w0)) :
  let w1 := wqDone (ItemOther goSyntax) (wqForget (ItemOther goSyntax) w0) in
  processEnqueuedItem fuel w
  = (Ret true, w1,
     [EvQueueGet (ItemOther goSyntax) false;
      EvQueueForget (ItemOther goSyntax);
      EvHandleError (fmt.Sprintf "Expected the enqueued item is string but got %#v"
                                 [goSyntax]);
      EvQueueDone (ItemOther goSyntax)])
  /\ workerLoop (S rounds) fuel w
     = prepend (events (processEnqueuedItem fuel w)) (workerLoop rounds fuel w1).
Proof.
  cbv zeta.
  assert (processEnqueuedItem fuel w
          = (Ret true, wqDone (ItemOther goSyntax) (wqForget (ItemOther goSyntax) w0),
             [EvQueueGet (ItemOther goSyntax) false;
              EvQueueForget (ItemOther goSyntax);
              EvHandleError (fmt.Sprintf "Expected the enqueued item is string but got %#v"
                                         [goSyntax]);
              EvQueueDone (ItemOther goSyntax)])) as Hrun.
  { rewrite processEnqueuedItem_run, Hget. cbv zeta. cbn [fst snd].
    rewrite processItem_run. reflexivity. }
  split; [exact Hrun|]. rewrite workerLoop_step. cbv zeta. rewrite Hrun. reflexivity.
Qed.

(** X15: a pod that has no controller is itself the object patched: no
    owner is fetched, and the patch goes to the resource named by the plural
    of the pod's own Kind field, under the pod's namespace and name. *)
Theorem pod_without_controller_is_patched_itself fuel key w ns nm pod w1 node w2
  (Hsplit : cache.SplitMetaNamespaceKey key = inr (ns, nm))
  (Hlist : listerGet ns nm w = (inr pod, w1))
  (Hnone : List.filter isController (metav1.OwnerReferences (v1.pod_meta pod)) = [])
  (Hnode : nodeGet (v1.NodeName (v1.Spec pod)) w1 = (inr node, w2)) :
  let body := fmt.Sprintf patchJSON
                [metav1.label (metav1.Labels (v1.node_meta node))
                              "beta.kubernetes.io/arch"] in
  let patched := restPatch (metav1.Namespace (v1.pod_meta pod))
                           (lowercaseAndPluralise (v1.Kind pod))
                           (metav1.Name (v1.pod_meta pod)) body w2 in
  reSchedulePod (S fuel) key w
  = (Ret (fst patched), snd patched,
     [EvListerGet ns nm (inr pod);
      EvNodeGet (v1.NodeName (v1.Spec pod)) (inr node);
      EvRestPatch (metav1.Namespace (v1.pod_meta pod))
                  (lowercaseAndPluralise (v1.Kind pod))
                  (metav1.Name (v1.pod_meta pod)) body (fst patched)]).
Proof.
  cbv zeta. rewrite reSchedulePod_run, Hsplit. cbv zeta. rewrite Hlist. cbn [fst snd].
  unfold reconcilePod. cbv zeta.
  rewrite getOriginControllerObject_step, GetControllerOf_first, Hnone.
  cbn [head outcome world events fst snd]. unfold patchOwner. cbv zeta.
  cbn [kind name namespace]. rewrite Hnode. cbn [fst snd].
  destruct (restPatch _ _ _ _ w2) as [r w3]. reflexivity.
Qed.

End edge_facts.

(** * The theorems at work on the scenario *)

Section witnesses.

Import scenario.

Lemma C1_witness_signature_enqueues :
  enqueued podA (events (handleObject podA (healthy (Copied errorMessage None)))).
Proof.
  refine (proj1 (C1_classifier_exact_signature podA (healthy (Copied errorMessage None)))
            {| v1.cs_Name := "app"; v1.State := crashLoop |} app _ _ _ _ _).
  - left. reflexivity.
  - reflexivity.
  - left. reflexivity.
  - reflexivity.
  - intros ns' nm' r [Hin|[Hin|[]]]; [|discriminate Hin].
    injection Hin as _ _ <-. exists None. reflexivity.
Defined.

(** C1 as stated fails: the crash-looping container logs some other crash,
    yet the pod is enqueued, on the log of the running sidecar. *)
Lemma C1_counterexample_sidecar_log_enqueues :
  ~ enqueuesOnlyOnCrashLoopLog podB sidecarMatches.
Proof.
  intros Hclaim. destruct Hclaim as (cs & closeErr & Hin & Hcrash & Hev).
  - vm_compute. right. left. reflexivity.
  - destruct Hin as [<-|[<-|[]]]; [discriminate Hcrash|].
    vm_compute in Hev. destruct Hev as [Hev|[Hev|[]]]; discriminate Hev.
Qed.

(** C3 as stated fails: with a running sidecar listed before the crash-looping
    container, the log of the sidecar is fetched too. *)
Lemma C3_counterexample_running_container_fetched :
  ~ fetchesOnlyCrashLoopContainers podB (healthy (Copied "some other crash" None)).
Proof.
  intros Hclaim.
  destruct (Hclaim "ns" "pod-b" "sidecar" (Copied "started" None)) as (cs & Hin & Hname & Hcrash).
  - vm_compute. left. reflexivity.
  - destruct Hin as [<-|[<-|[]]]; vm_compute in Hname, Hcrash; discriminate.
Qed.

(** Logs that are not the signature: empty, cut short, and the signature
    with more text after it. *)
Example empty_log_not_enqueued :
  ~ enqueued podA (events (handleObject podA (healthy (Copied EmptyString None)))).
Proof. vm_compute. intuition discriminate. Qed.

Example truncated_log_not_enqueued :
  ~ enqueued podA
      (events (handleObject podA
                 (healthy (Copied (String.substring 0 40 errorMessage) None)))).
Proof. vm_compute. intuition discriminate. Qed.

Example longer_log_not_enqueued :
  ~ enqueued podA
      (events (handleObject podA
                 (healthy (Copied (errorMessage +:+ errorMessage) None)))).
Proof. vm_compute. intuition discriminate. Qed.

Example other_crash_not_enqueued :
  events (handleObject podA (healthy (Copied "some other crash" None)))
  = [EvGetLogs "ns" "pod-a" "app" (Copied "some other crash" None)].
Proof. reflexivity. Qed.

(** The chain of the end-to-end scenario: pod-a, rs-a, deploy-a. *)
Lemma scenario_chain :
  OwnerChain (healthy (Copied errorMessage None)) (v1.pod_meta podA) "Pod" 2
             (healthy (Copied errorMessage None)) deployA "Deployment".
Proof.
  eapply chain_hop; [reflexivity|reflexivity|].
  eapply chain_hop; [reflexivity|reflexivity|].
  apply chain_top. reflexivity.
Defined.

Lemma C2_witness_deployment_resolved :
  outcome (getOriginControllerObject 3 (RObject (v1.pod_meta podA)) "Pod"
             (healthy (Copied errorMessage None)))
  = Ret (inr {| kind := "Deployment"; name := "deploy-a"; namespace := "ns" |})
  /\ count isRestGet
       (events (getOriginControllerObject 3 (RObject (v1.pod_meta podA)) "Pod"
                  (healthy (Copied errorMessage None)))) = 2.
Proof.
  destruct (C2_resolve_returns_chain_top _ _ _ _ _ _ _ 3 scenario_chain ltac:(lia))
    as (Hout & _ & _ & Hcount).
  split; [exact Hout|exact Hcount].
Defined.

Lemma C4_witness_node_failure_requeues :
  outcome (processEnqueuedItem 3 nodesDown) = Ret true
  /\ List.filter isVerdict (events (processEnqueuedItem 3 nodesDown))
     = [EvQueueAddRateLimited (ItemString "ns/pod-a")].
Proof.
  assert (wqGet nodesDown = (ItemString "ns/pod-a", false, nodesDown)) as Hget
      by reflexivity.
  apply (proj1 (C4_failure_requeues_success_forgets 3 "ns/pod-a" nodesDown nodesDown
                  Hget)).
  reflexivity.
Defined.

Lemma C5_witness_malformed_key_forgotten :
  processEnqueuedItem 0 badKey
  = (Ret true, badKey,
     [EvQueueGet (ItemString "a/b/c") false;
      EvHandleError "Invalid resource key: a/b/c";
      EvQueueForget (ItemString "a/b/c");
      EvKlog SevInfo "Successfully patch to reschedule 'a/b/c'";
      EvQueueDone (ItemString "a/b/c")]).
Proof.
  assert (wqGet badKey = (ItemString "a/b/c", false, badKey)) as Hget by reflexivity.
  eapply (proj1 (C5_malformed_or_gone_is_forgotten 0 "a/b/c" badKey badKey Hget)).
  reflexivity.
Defined.

Lemma C6_witness_arm64 :
  (exists fetches,
      events (reSchedulePod 3 "ns/pod-a" (healthy (Copied errorMessage None)))
      = EvListerGet "ns" "pod-a" (inr podA)
        :: fetches
        ++ [EvNodeGet "node-1" (inr node1);
            EvRestPatch "ns" "deployments" "deploy-a"
                        (fmt.Sprintf patchJSON ["arm64"]) None])
  /\ json.parse (fmt.Sprintf patchJSON ["arm64"])
     = Some (requiredNodeAffinity [{| MatchExpressions := [notOnArchitecture "arm64"] |}]).
Proof.
  assert (cache.SplitMetaNamespaceKey "ns/pod-a" = inr ("ns", "pod-a")) as Hsplit
      by reflexivity.
  assert (listerGet "ns" "pod-a" (healthy (Copied errorMessage None))
          = (inr podA, healthy (Copied errorMessage None))) as Hlist by reflexivity.
  assert (nodeGet (v1.NodeName (v1.Spec podA)) (healthy (Copied errorMessage None))
          = (inr node1, healthy (Copied errorMessage None))) as Hnode by reflexivity.
  assert (validation.IsValidLabelValue
            (metav1.label (metav1.Labels (v1.node_meta node1)) "beta.kubernetes.io/arch")
          = true) as Hvalid by reflexivity.
  destruct (C6_patch_excludes_node_architecture 3 "ns/pod-a" _ "ns" "pod-a" podA _ 2 _
              deployA "Deployment" node1 _ Hsplit Hlist scenario_chain ltac:(lia) Hnode
              Hvalid)
    as ((fetches & r & _ & Hev) & Hparse & _).
  split; [|exact Hparse].
  exists fetches. rewrite Hev. f_equal. f_equal. f_equal. f_equal.
  assert (existsb isFailure
            (events (reSchedulePod 3 "ns/pod-a" (healthy (Copied errorMessage None))))
          = false) as Hnone by reflexivity.
  rewrite Hev in Hnone. cbn [existsb isFailure orb] in Hnone.
  rewrite existsb_app in Hnone. apply orb_false_elim in Hnone as [_ Hnone].
  destruct r; [discriminate Hnone|reflexivity].
Defined.

(** The template is filled without escaping: a value with a double quote
    in it (no label value has one) would be read as another document. *)
Example unescaped_value_reads_differently :
  json.parse (fmt.Sprintf patchJSON [text.unquote "a', 'b"])
  = Some (requiredNodeAffinity
            [{| MatchExpressions :=
                  [{| Key := "beta.kubernetes.io/arch"; Operator := "NotIn";
                      Values := ["a"; "b"] |}] |}]).
Proof. reflexivity. Qed.

Lemma C7_witness_owner_fetch_times_out :
  outcome (reSchedulePod 3 "ns/pod-a" ownersDown) = Ret (Some timeout)
  /\ existsb isNodeOrPatch (events (processEnqueuedItem 3 ownersDown)) = false
  /\ List.filter isVerdict (events (processEnqueuedItem 3 ownersDown))
     = [EvQueueAddRateLimited (ItemString "ns/pod-a")]
  /\ outcome (processEnqueuedItem 3 ownersDown) = Ret true.
Proof.
  assert (wqGet ownersDown = (ItemString "ns/pod-a", false, ownersDown)) as Hget
      by reflexivity.
  refine (proj2 (C7_owner_fetch_failure_aborts 3 "ns/pod-a" ownersDown ownersDown
                   "replicasets" "ns" "rs-a" timeout Hget _)).
  vm_compute. right. right. left. reflexivity.
Defined.

Lemma C8_witness_stream_failure_skipped :
  exists msg,
    scanContainers podB [app; sidecar] (healthy (StreamFailed timeout))
    = prepend [EvGetLogs "ns" "pod-b" "app" (StreamFailed timeout); EvKlog SevError msg]
              (scanContainers podB [sidecar] (healthy (StreamFailed timeout))).
Proof.
  assert (fst (podLogs "ns" "pod-b" "app" (healthy (StreamFailed timeout)))
          = StreamFailed timeout) as Hfail by reflexivity.
  exact (proj1 (C8_log_failure_skips_container podB app [sidecar]
                  (healthy (StreamFailed timeout)) timeout (or_introl Hfail))).
Defined.

Lemma C9_witness_same_version_dropped :
  UpdateFunc podA podA (healthy (Copied errorMessage None))
  = (Ret tt, healthy (Copied errorMessage None), []).
Proof.
  apply (proj1 (C9_update_compares_resource_version podA podA
                  (healthy (Copied errorMessage None)))).
  reflexivity.
Defined.

Lemma scenario_walk_ends :
  forall key ns nm pod w1,
    ItemString "ns/pod-a" = ItemString key ->
    cache.SplitMetaNamespaceKey key = inr (ns, nm) ->
    listerGet ns nm (healthy (Copied errorMessage None)) = (inr pod, w1) ->
    WalkEnds w1 (RObject (v1.pod_meta pod)) 2.
Proof.
  intros key ns nm pod w1 [= <-] Hsplit Hlist.
  vm_compute in Hsplit. injection Hsplit as <- <-.
  injection Hlist as <- <-.
  eapply ends_hop; [reflexivity|]. intros res w2 Hget. injection Hget as <- <-.
  eapply ends_hop; [reflexivity|]. intros res w3 Hget. injection Hget as <- <-.
  apply ends_top. reflexivity.
Defined.

Lemma C10_witness_done_once :
  outcome (processEnqueuedItem 3 (healthy (Copied errorMessage None))) = Ret true
  /\ List.filter isDone (events (processEnqueuedItem 3 (healthy (Copied errorMessage None))))
     = [EvQueueDone (ItemString "ns/pod-a")]
  /\ List.filter isVerdict
       (events (processEnqueuedItem 3 (healthy (Copied errorMessage None))))
     = [EvQueueForget (ItemString "ns/pod-a")]
  /\ outcome (processEnqueuedItem 3 (healthy (Copied errorMessage None))) <> OutOfFuel.
Proof.
  assert (wqGet (healthy (Copied errorMessage None))
          = (ItemString "ns/pod-a", false, healthy (Copied errorMessage None))) as Hget
      by reflexivity.
  destruct (C10_done_once_one_verdict 3 (ItemString "ns/pod-a")
              (healthy (Copied errorMessage None)) (healthy (Copied errorMessage None))
              Hget) as [Hrun Hends].
  assert (outcome (processEnqueuedItem 3 (healthy (Copied errorMessage None))) = Ret true)
    as Hout by reflexivity.
  rewrite Hout in Hrun. destruct Hrun as (_ & Hdone & [Hforget|Hagain]).
  - split; [exact Hout|]. split; [exact Hdone|]. split; [exact Hforget|].
    exact (Hends 2 scenario_walk_ends ltac:(lia)).
  - vm_compute in Hagain. discriminate Hagain.
Defined.

(** The end-to-end scenario: one patch, to Deployment ns/deploy-a, excluding
    arm64, and the key is forgotten. *)
Example scenario_patches_deployment :
  List.filter isNodeOrPatch
    (events (processEnqueuedItem 3 (healthy (Copied errorMessage None))))
  = [EvNodeGet "node-1" (inr node1);
     EvRestPatch "ns" "deployments" "deploy-a" (fmt.Sprintf patchJSON ["arm64"]) None]
  /\ List.filter isVerdict
       (events (processEnqueuedItem 3 (healthy (Copied errorMessage None))))
     = [EvQueueForget (ItemString "ns/pod-a")].
Proof. split; reflexivity. Qed.

End witnesses.

(** * The further properties at work *)

Section more_witnesses.

Import scenario faults.

Lemma walk_follows_first_controller_only_witness :
  getOriginControllerObject 3 (RObject rsA) "ReplicaSet" (healthy (Copied errorMessage None))
  = getOriginControllerObject 3 (RObject rsAdopted) "ReplicaSet"
      (healthy (Copied errorMessage None)).
Proof.
  assert (head (List.filter isController (metav1.OwnerReferences rsA))
          = head (List.filter isController (metav1.OwnerReferences rsAdopted))) as Hfirst
      by reflexivity.
  exact (proj1 (walk_follows_first_controller_only 3 rsA rsAdopted "ReplicaSet"
                  (healthy (Copied errorMessage None)) eq_refl eq_refl Hfirst)).
Defined.

Lemma lister_error_is_retried_witness :
  List.filter isVerdict (events (processEnqueuedItem 3 listerDown))
  = [EvQueueAddRateLimited (ItemString "ns/pod-a")].
Proof.
  assert (wqGet listerDown = (ItemString "ns/pod-a", false, listerDown)) as Hget
      by reflexivity.
  assert (cache.SplitMetaNamespaceKey "ns/pod-a" = inr ("ns", "pod-a")) as Hsplit
      by reflexivity.
  assert (listerGet "ns" "pod-a" listerDown = (inl timeout, listerDown)) as Hlist
      by reflexivity.
  rewrite (lister_error_is_retried 3 "ns/pod-a" listerDown listerDown "ns" "pod-a"
             timeout listerDown Hget Hsplit Hlist eq_refl).
  reflexivity.
Defined.

Lemma reSchedulePod_patches_chain_top_witness :
  exists fetches,
    length fetches = 2
    /\ events (reSchedulePod 3 "ns/pod-a" (healthy (Copied errorMessage None)))
       = EvListerGet "ns" "pod-a" (inr podA)
         :: fetches
         ++ [EvNodeGet "node-1" (inr node1);
             EvRestPatch "ns" "deployments" "deploy-a"
                         (fmt.Sprintf patchJSON ["arm64"]) None].
Proof.
  assert (cache.SplitMetaNamespaceKey "ns/pod-a" = inr ("ns", "pod-a")) as Hsplit
      by reflexivity.
  assert (listerGet "ns" "pod-a" (healthy (Copied errorMessage None))
          = (inr podA, healthy (Copied errorMessage None))) as Hlist by reflexivity.
  assert (nodeGet (v1.NodeName (v1.Spec podA)) (healthy (Copied errorMessage None))
          = (inr node1, healthy (Copied errorMessage None))) as Hnode by reflexivity.
  destruct (reSchedulePod_patches_chain_top 3 "ns/pod-a" _ "ns" "pod-a" podA _ 2 _
              deployA "Deployment" node1 _ Hsplit Hlist scenario_chain ltac:(lia) Hnode)
    as (_ & _ & fetches & Hlen & _ & Hev).
  exists fetches. split; [exact Hlen|exact Hev].
Defined.


Lemma enqueued_key_finds_pod_witness :
  exists rest,
    events (processEnqueuedItem 3 (healthy (Copied errorMessage None)))
    = EvQueueGet (ItemString "ns/pod-a") false
      :: EvListerGet "ns" "pod-a" (inr podA) :: rest.
Proof.
  assert (wqGet (healthy (Copied errorMessage None))
          = (ItemString (podKey podA), false, healthy (Copied errorMessage None)))
    as Hget by reflexivity.
  exact (enqueued_key_finds_pod 3 podA _ _ eq_refl eq_refl Hget).
Defined.

Lemma panic_only_after_owner_that_is_no_object_witness :
  List.filter isQueueCall (events (processEnqueuedItem 3 strangers))
  = [EvQueueDone (ItemString "ns/pod-a")].
Proof.
  assert (wqGet strangers = (ItemString "ns/pod-a", false, strangers)) as Hget
      by reflexivity.
  assert (outcome (processEnqueuedItem 3 strangers)
          = Panic "interface conversion: interface is not metav1.Object") as Hpanic
      by reflexivity.
  exact (proj2 (proj2 (panic_only_after_owner_that_is_no_object 3 "ns/pod-a" strangers
                         strangers _ Hget Hpanic))).
Defined.

Lemma walk_never_ends_on_owner_cycle_witness :
  outcome (getOriginControllerObject 50 (RObject selfOwned) "ReplicaSet" looping)
  = OutOfFuel
  /\ length (events (getOriginControllerObject 50 (RObject selfOwned) "ReplicaSet"
                       looping)) = 50.
Proof.
  assert (forall (w : Cluster) obj, (w = looping /\ obj = selfOwned) ->
            exists ref owner w',
              metav1.GetControllerOf obj = Some ref
              /\ restGet (lowercaseAndPluralise (metav1.ref_Kind ref))
                         (metav1.Namespace obj) (metav1.ref_Name ref) w
                 = (inr (RObject owner), w')
              /\ (w' = looping /\ owner = selfOwned)) as Hstep.
  { intros w obj [-> ->]. exists (controlledBy "ReplicaSet" "rs-loop"), selfOwned, looping.
    repeat split. }
  destruct (walk_never_ends_on_owner_cycle (fun w obj => w = looping /\ obj = selfOwned)
              Hstep 50 selfOwned "ReplicaSet" looping (conj eq_refl eq_refl))
    as (Hout & Hlen & _).
  split; [exact Hout|exact Hlen].
Defined.

Lemma item_that_is_no_string_is_dropped_witness :
  processEnqueuedItem 3 oddItem
  = (Ret true, oddItem,
     [EvQueueGet (ItemOther "42") false;
      EvQueueForget (ItemOther "42");
      EvHandleError (fmt.Sprintf "Expected the enqueued item is string but got %#v" ["42"]);
      EvQueueDone (ItemOther "42")]).
Proof.
  assert (wqGet oddItem = (ItemOther "42", false, oddItem)) as Hget by reflexivity.
  exact (proj1 (item_that_is_no_string_is_dropped 0 3 "42" oddItem oddItem Hget)).
Defined.

Lemma pod_without_controller_is_patched_itself_witness :
  reSchedulePod 1 "ns/pod-c" orphans
  = (Ret None, orphans,
     [EvListerGet "ns" "pod-c" (inr podC);
      EvNodeGet "node-1" (inr node1);
      EvRestPatch "ns" "pods" "pod-c" (fmt.Sprintf patchJSON ["arm64"]) None]).
Proof.
  assert (cache.SplitMetaNamespaceKey "ns/pod-c" = inr ("ns", "pod-c")) as Hsplit
      by reflexivity.
  assert (listerGet "ns" "pod-c" orphans = (inr podC, orphans)) as Hlist by reflexivity.
  assert (nodeGet (v1.NodeName (v1.Spec podC)) orphans = (inr node1, orphans)) as Hnode
      by reflexivity.
  exact (pod_without_controller_is_patched_itself 0 "ns/pod-c" orphans "ns" "pod-c" podC
           orphans node1 orphans Hsplit Hlist eq_refl Hnode).
Defined.

End more_witnesses.

(** * The worker on clusters with faults *)

Section worker_on_faults.

Import scenario faults.

(** C10 as stated fails: when an owner fetch is answered with a value that
    is no object, the run panics after the deferred Done, having called
    neither Forget nor AddRateLimited, and returns nothing; this for every
    bound on the owner walk. *)
Lemma C10_counterexample_panic_no_verdict :
  processEnqueuedItem 3 strangers
  = (Panic "interface conversion: interface is not metav1.Object", strangers,
     [EvQueueGet (ItemString "ns/pod-a") false;
      EvListerGet "ns" "pod-a" (inr podA);
      EvRestGet "replicasets" "ns" "rs-a" (inr RNoMeta);
      EvQueueDone (ItemString "ns/pod-a")])
  /\ (forall fuel, ~ doneOnceOneVerdict fuel strangers).
Proof.
  split; [reflexivity|]. intros fuel Hclaim.
  assert (wqGet strangers = (ItemString "ns/pod-a", false, strangers)) as Hget
      by reflexivity.
  destruct (Hclaim _ _ Hget) as (Hout & _).
  destruct fuel as [|[|fuel]]; vm_compute in Hout; discriminate Hout.
Qed.

(** On the cluster whose owner references go in a circle the run of the
    worker does not end, whatever the bound on the walk: the item is never
    marked Done. *)
Example item_of_owner_cycle_is_never_done :
  forall fuel,
    outcome (processEnqueuedItem fuel looping) = OutOfFuel
    /\ List.filter isDone (events (processEnqueuedItem fuel looping)) = [].
Proof.
  assert (forall fuel k,
             outcome (getOriginControllerObject fuel (RObject selfOwned) k looping)
             = OutOfFuel) as Hloop.
  { induction fuel as [|fuel IH]; intros k; [reflexivity|].
    rewrite getOriginControllerObject_step.
    change (metav1.GetControllerOf selfOwned)
      with (Some (controlledBy "ReplicaSet" "rs-loop")).
    cbv zeta.
    change (restGet (lowercaseAndPluralise
                       (metav1.ref_Kind (controlledBy "ReplicaSet" "rs-loop")))
                    (metav1.Namespace selfOwned)
                    (metav1.ref_Name (controlledBy "ReplicaSet" "rs-loop")) looping)
      with (inr (RObject selfOwned) : error + RuntimeObject, looping).
    cbn [fst snd prepend outcome]. apply IH. }
  assert (forall fuel, outcome (reSchedulePod fuel "ns/pod-a" looping) = OutOfFuel)
    as Hinner.
  { intros fuel. rewrite reSchedulePod_run.
    change (cache.SplitMetaNamespaceKey "ns/pod-a") with (@inr error _ ("ns", "pod-a")).
    cbv beta iota zeta.
    assert (listerGet "ns" "pod-a" looping = (inr podA, looping)) as Hlist by reflexivity.
    rewrite Hlist. cbn [fst snd prepend outcome]. unfold reconcilePod. cbv zeta.
    assert (outcome (getOriginControllerObject fuel (RObject (v1.pod_meta podA))
                       (v1.Kind podA) looping) = OutOfFuel) as Hwalk.
    { destruct fuel as [|fuel]; [reflexivity|].
      rewrite getOriginControllerObject_step.
      change (metav1.GetControllerOf (v1.pod_meta podA))
        with (Some (controlledBy "ReplicaSet" "rs-a")).
      cbv zeta.
      change (restGet (lowercaseAndPluralise
                         (metav1.ref_Kind (controlledBy "ReplicaSet" "rs-a")))
                      (metav1.Namespace (v1.pod_meta podA))
                      (metav1.ref_Name (controlledBy "ReplicaSet" "rs-a")) looping)
        with (inr (RObject selfOwned) : error + RuntimeObject, looping).
      cbn [fst snd prepend outcome]. apply Hloop. }
    now rewrite Hwalk. }
  intros fuel.
  assert (wqGet looping = (ItemString "ns/pod-a", false, looping)) as Hget by reflexivity.
  destruct (processEnqueuedItem_verdict fuel "ns/pod-a" looping looping Hget)
    as ((tail & Hev & _) & Hverdict).
  rewrite Hinner in Hverdict. split; [exact Hverdict|].
  revert Hverdict. rewrite processEnqueuedItem_run, Hget. cbv zeta. cbn [fst snd].
  rewrite processItem_run. cbv zeta. rewrite Hinner.
  cbn [prepend outcome events fst snd List.filter isDone]. intros _.
  destruct (reSchedulePod_facts fuel "ns/pod-a" looping) as (Hplain & _ & _).
  exact (filter_plain isDone _ Hplain isDone_queue).
Qed.

End worker_on_faults.
